(** * slack-job-monitor: the job loop, its statistics and its rate limiter

    A shallow embedding of [src/slack_job_monitor/__main__.py] and of
    [src/slack_job_monitor/slack_wrapper.py] ([RateLimiter] and
    [SlackClientWrapper]).

    Conventions of the embedding.
    - Python [float] values read from the world (clock readings, cpu times)
      are rationals [Q]: arithmetic is exact, and a division by zero raises,
      as in Python.  Where rounding changes the answer, module [Binary64]
      repeats the accumulation of lines 109-110 on binary64 numbers.  The
      percentage of completed jobs, which the code computes from two integers
      and truncates, is computed on binary64 numbers as the code does.  The
      length of a sleep is a real number (module [Sleep]); the executable
      model only needs to know whether [time.sleep(math.log10(x))] raises.
    - What the operating system, the child processes and Slack do is an input:
      a [world] holds the clock readings and the outcome of every external
      call, one [job_env] per job.  A child that never exits is not modelled:
      the polls of one job are a finite list of [tick]s.
    - An exception is a value of [exn]; code that can raise returns a
      [result]; the methods of [ProcessMonitor] run in the monad [M], which
      threads the object and keeps its mutations when an exception is raised.
    - [calls] logs the external calls the monitor makes (child launched, child
      terminated, Slack message updated, user pinged), oldest first.
    - The Slack client is an input too: each of its calls ends as an [api]
      value says, and the wrapper's methods return the posts they asked for.
      Strings are sequences of code points below 256. *)

From Stdlib Require Import List Ascii String ZArith QArith Lia Bool Arith.
From Stdlib Require Import Permutation Sorted.
From Stdlib Require Import Reals Lra Qreals.
From Stdlib Require Import Floats.PrimFloat.
From Stdlib Require Floats.SpecFloat Floats.FloatOps.
From Stdlib Require Numbers.Cyclic.Int63.Uint63.
Import ListNotations.

Local Open Scope Q_scope.

(** ** Exceptions and results *)

Inductive exn : Set :=
| KeyboardInterrupt
| ZeroDivisionError
| ValueError
| UnboundLocalError
| OSError
| NoSuchProcess
| ZombieProcess
| AccessDenied.

(** [psutil.NoSuchProcess], [psutil.ZombieProcess] and [psutil.AccessDenied]
    are the subclasses of [psutil.Error]. *)
Definition is_psutil_Error (e : exn) : bool :=
  match e with
  | NoSuchProcess | ZombieProcess | AccessDenied => true
  | _ => false
  end.

Definition is_KeyboardInterrupt (e : exn) : bool :=
  match e with
  | KeyboardInterrupt => true
  | _ => false
  end.

Inductive result (A : Type) : Type :=
| Ok (a : A)
| Raise (e : exn).

Arguments Ok {A} a.
Arguments Raise {A} e.

(** Python's [/] on numbers: a zero divisor raises. *)
Definition py_div (x y : Q) : result Q :=
  if Qeq_bool y 0 then Raise ZeroDivisionError else Ok (x / y).

(** An [int] that is a count, as a [float]: exact below 2^53, and the counts
    of a run (jobs in a list) stay far below that. *)
Definition py_float (n : nat) : float :=
  PrimFloat.of_uint63 (Uint63.of_Z (Z.of_nat n)).

(** Python's [/] on two such [int]s: a [float], the quotient rounded to
    binary64; a zero divisor raises. *)
Definition py_truediv (a b : nat) : result float :=
  if Nat.eqb b 0 then Raise ZeroDivisionError
  else Ok (PrimFloat.div (py_float a) (py_float b)).

(** Python's [int(x)] on a [float]: truncation towards zero.  A finite
    binary64 number is [m * 2^e], negated when [s] is set.  ([int] raises on
    an infinity or a NaN; the quotient of two counts, times 100, is finite.) *)
Definition py_int (x : float) : Z :=
  match FloatOps.Prim2SF x with
  | SpecFloat.S754_finite s m e =>
      let v := if (0 <=? e)%Z then (Z.pos m * 2 ^ e)%Z
               else (Z.pos m / 2 ^ (- e))%Z in
      if s then (- v)%Z else v
  | _ => 0%Z
  end.

(** Python's [sum] of numbers: a left fold from 0. *)
Definition sum (l : list Q) : Q := fold_left Qplus l 0.

(** ** slack_wrapper.RateLimiter *)

Record RateLimiter : Set := mkRateLimiter {
  period_sec : Q;
  last_ok : Q
}.

(** [RateLimiter.__init__] *)
Definition RateLimiter_init (period : Q) : RateLimiter :=
  {| period_sec := period; last_ok := 0 |}.

(** [RateLimiter.__call__], with [now] the reading of [time.time()]. *)
Definition RateLimiter_call (now : Q) (r : RateLimiter) : bool * RateLimiter :=
  if Qlt_le_dec (period_sec r) (now - last_ok r)
  then (true, {| period_sec := period_sec r; last_ok := now |})
  else (false, r).

(** ** Process samples and the per-job table *)

(** A [psutil.Process] is identified by one number (pid and creation time). *)
Definition Process : Set := nat.

(** The two fields of [psutil._common.pcputimes] the monitor reads. *)
Record pcputimes : Set := mkTimes {
  user : Q;
  system : Q
}.

(** A Python [dict] keyed by process: insertion ordered, a key written again
    keeps its place. *)
Definition dict : Set := list (Process * pcputimes).

Fixpoint dict_get (k : Process) (d : dict) : option pcputimes :=
  match d with
  | [] => None
  | (k', v) :: d' => if Nat.eqb k k' then Some v else dict_get k d'
  end.

Fixpoint dict_set (k : Process) (v : pcputimes) (d : dict) : dict :=
  match d with
  | [] => [(k, v)]
  | (k', v') :: d' =>
      if Nat.eqb k k' then (k, v) :: d' else (k', v') :: dict_set k v d'
  end.

Definition values (d : dict) : list pcputimes := map snd d.

(** Lines 95-101: one pass over the root and its descendants.  A
    [psutil.Error] raised by [cpu_times()] is passed over; any other
    exception leaves the loop. *)
Fixpoint sample_tree (cpu_times : Process -> result pcputimes)
    (members : list Process) (proc_stats : dict) : result dict :=
  match members with
  | [] => Ok proc_stats
  | pc :: rest =>
      match cpu_times pc with
      | Ok s => sample_tree cpu_times rest (dict_set pc s proc_stats)
      | Raise e =>
          if is_psutil_Error e then sample_tree cpu_times rest proc_stats
          else Raise e
      end
  end.

(** Line 103, [time.sleep(math.log10(x))], as far as raising goes:
    [math.log10] raises [ValueError] unless [0 < x], [time.sleep] raises
    [ValueError] on a negative length, that is when [x < 1]; otherwise the
    sleep ends the way the world says ([wake]: normally, or by a signal). *)
Definition sleep_log10 (x : Q) (wake : result unit) : result unit :=
  if Qlt_le_dec 0 x
  then if Qlt_le_dec x 1 then Raise ValueError else wake
  else Raise ValueError.

(** One iteration of the polling loop, that is one [proc.poll()] that
    returned [None]. *)
Record tick : Type := mkTick {
  tk_children : list Process;                  (* p.children(recursive=True) *)
  tk_cpu_times : Process -> result pcputimes;  (* pc.cpu_times() now *)
  tk_now : Q;                                  (* time.time() on line 103 *)
  tk_sleep : result unit                       (* how time.sleep returns *)
}.

(** Lines 94-103 for the child [p] started at [job_start]. *)
Fixpoint poll_loop (p : Process) (job_start : Q) (ticks : list tick)
    (proc_stats : dict) : result dict :=
  match ticks with
  | [] => Ok proc_stats
  | tk :: later =>
      match sample_tree (tk_cpu_times tk) (p :: tk_children tk) proc_stats with
      | Ok proc_stats' =>
          match sleep_log10 (tk_now tk - job_start + 1) (tk_sleep tk) with
          | Ok _ => poll_loop p job_start later proc_stats'
          | Raise e => Raise e
          end
      | Raise e => Raise e
      end
  end.

(** ** __main__.ProcessMonitor *)

Inductive MonitorStatus : Set :=
| STARTED
| RUNNING
| COMPLETED
| COMPLETED_WITH_ERRORS
| INTERRUPTED
| CRASHED.

(** The values [get_stats_str] interpolates into its three lines; the
    wording of durations belongs to the [human_readable] package. *)
Record stats_str : Set := mkStats {
  ss_elapsed : Q;          (* real_time *)
  ss_completed : nat;
  ss_total : nat;          (* len(args) *)
  ss_completed_pct : Z;    (* int(completed_pct) *)
  ss_failed : nat;
  ss_cpu_pct : Q;
  ss_user : Q;
  ss_system : Q
}.

Inductive message : Set :=
| EmptyText                      (* the [""] of the constructor *)
| StatsText (s : stats_str).

(** The external calls of the monitor. *)
Inductive event : Set :=
| Popen (cmd : list string)
| Terminate (p : Process)
| UpdatePost (st : MonitorStatus) (body : message)
| PingUser.

(** The attributes of a [ProcessMonitor]; [proc] is the local variable of
    [run_jobs] ([None] while unbound) and [calls] the log of external calls. *)
Record ProcessMonitor : Set := mkMonitor {
  command : list string;
  args : list string;
  status : MonitorStatus;
  rate_limiter : RateLimiter;
  start : Q;
  completed : nat;
  failed : nat;
  user_time : Q;
  system_time : Q;
  real_time : Q;
  proc : option Process;
  calls : list event
}.

Definition set_status (s : MonitorStatus) (m : ProcessMonitor) : ProcessMonitor :=
  mkMonitor (command m) (args m) s (rate_limiter m) (start m) (completed m)
    (failed m) (user_time m) (system_time m) (real_time m) (proc m) (calls m).

Definition set_rate_limiter (r : RateLimiter) (m : ProcessMonitor) : ProcessMonitor :=
  mkMonitor (command m) (args m) (status m) r (start m) (completed m)
    (failed m) (user_time m) (system_time m) (real_time m) (proc m) (calls m).

Definition set_real_time (t : Q) (m : ProcessMonitor) : ProcessMonitor :=
  mkMonitor (command m) (args m) (status m) (rate_limiter m) (start m)
    (completed m) (failed m) (user_time m) (system_time m) t (proc m) (calls m).

Definition set_proc (p : Process) (m : ProcessMonitor) : ProcessMonitor :=
  mkMonitor (command m) (args m) (status m) (rate_limiter m) (start m)
    (completed m) (failed m) (user_time m) (system_time m) (real_time m)
    (Some p) (calls m).

Definition record_call (e : event) (m : ProcessMonitor) : ProcessMonitor :=
  mkMonitor (command m) (args m) (status m) (rate_limiter m) (start m)
    (completed m) (failed m) (user_time m) (system_time m) (real_time m)
    (proc m) (calls m ++ [e]).

(** Lines 106-111: the job is counted and its table folded into the totals. *)
Definition account (returncode : Z) (proc_stats : dict) (now : Q)
    (m : ProcessMonitor) : ProcessMonitor :=
  mkMonitor (command m) (args m) (status m) (rate_limiter m) (start m)
    (completed m + 1)
    (failed m + (if Z.eqb returncode 0 then 0 else 1))
    (user_time m + sum (map user (values proc_stats)))
    (system_time m + sum (map system (values proc_stats)))
    (now - start m) (proc m) (calls m).

(** The monad of the methods: the object is threaded, a raise keeps it. *)
Definition M (A : Type) : Type := ProcessMonitor -> ProcessMonitor * result A.

Definition ret {A : Type} (a : A) : M A := fun m => (m, Ok a).

Definition bind {A B : Type} (c : M A) (k : A -> M B) : M B :=
  fun m =>
    match c m with
    | (m', Ok a) => k a m'
    | (m', Raise e) => (m', Raise e)
    end.

Notation "x <- c ;; k" := (bind c (fun x => k))
  (at level 61, c at next level, right associativity).
Notation "c ;;; k" := (bind c (fun _ => k))
  (at level 61, right associativity).

Definition lift {A : Type} (r : result A) : M A := fun m => (m, r).

Definition modify (f : ProcessMonitor -> ProcessMonitor) : M unit :=
  fun m => (f m, Ok tt).

(** [try: c  except <catches>: h] *)
Definition try_except {A : Type} (c : M A) (catches : exn -> bool) (h : M A) : M A :=
  fun m =>
    match c m with
    | (m', Ok a) => (m', Ok a)
    | (m', Raise e) => if catches e then h m' else (m', Raise e)
    end.

(** [update_message]: the text carries the status of the moment; [sent] is
    what [slack.update_post] does as the caller sees it (the wrapper logs a
    [SlackApiError] and returns). *)
Definition update_message (body : message) (sent : result unit) : M unit :=
  fun m => (record_call (UpdatePost (status m) body) m, sent).

(** [get_stats_str], lines 69-78.  [completed_pct] is a binary64 number:
    the quotient of two [int]s, rounded, times 100, rounded again. *)
Definition get_stats_str (m : ProcessMonitor) : result stats_str :=
  match py_truediv (completed m) (List.length (args m)) with
  | Raise e => Raise e
  | Ok q =>
      let completed_pct := PrimFloat.mul q 100%float in
      match py_div (user_time m + system_time m) (real_time m) with
      | Raise e => Raise e
      | Ok c =>
          let cpu_pct := c * 100 in
          Ok (mkStats (real_time m) (completed m) (List.length (args m))
                (py_int completed_pct) (failed m) cpu_pct
                (user_time m) (system_time m))
      end
  end.

(** [self.update_message(self.get_stats_str())] *)
Definition report (sent : result unit) : M unit :=
  s <- (fun m => (m, get_stats_str m)) ;;
  update_message (StatsText s) sent.

(** What the world does while one job runs. *)
Record job_env : Type := mkJobEnv {
  je_start : Q;               (* time.time() on line 85 *)
  je_spawn : result Process;  (* subprocess.Popen: the child, or what it raises *)
  je_ticks : list tick;       (* the polls that find the child running *)
  je_returncode : Z;          (* proc.returncode after proc.wait() *)
  je_done : Q;                (* time.time() on line 111 *)
  je_gate_now : Q;            (* time.time() inside the rate limiter *)
  je_report : result unit     (* slack.update_post on line 114, if called *)
}.

(** A job: its argument token and what the world does when it runs. *)
Definition job : Type := (string * job_env)%type.

(** Line 91. *)
Definition spawn (arg : string) (child : result Process) : M Process :=
  fun m =>
    let m' := record_call (Popen (command m ++ [arg])) m in
    match child with
    | Ok p => (set_proc p m', Ok p)
    | Raise e => (m', Raise e)
    end.

(** Line 113. *)
Definition rate_limiter_call (now : Q) : M bool :=
  fun m =>
    let (allowed, r) := RateLimiter_call now (rate_limiter m) in
    (set_rate_limiter r m, Ok allowed).

(** Line 116: [proc] is read where it may be unbound. *)
Definition proc_terminate : M unit :=
  fun m =>
    match proc m with
    | Some p => (record_call (Terminate p) m, Ok tt)
    | None => (m, Raise UnboundLocalError)
    end.

(** Lines 85-114, the body of the [try].  [psutil.Process(proc.pid)] on line
    93 is taken to return: the child has not been waited for yet. *)
Definition job_body (j : job) : M unit :=
  let (arg, je) := j in
  p <- spawn arg (je_spawn je) ;;
  proc_stats <- lift (poll_loop p (je_start je) (je_ticks je) []) ;;
  modify (account (je_returncode je) proc_stats (je_done je)) ;;;
  allowed <- rate_limiter_call (je_gate_now je) ;;
  if allowed : bool then report (je_report je) else ret tt.

Inductive loop_ctl : Set := Continue | Break.

(** Lines 84-118, one iteration of the [for]. *)
Definition run_job (j : job) : M loop_ctl :=
  try_except (job_body j ;;; ret Continue) is_KeyboardInterrupt
    (proc_terminate ;;; modify (set_status INTERRUPTED) ;;; ret Break).

(** Lines 83-118. *)
Fixpoint job_loop (jobs : list job) : M loop_ctl :=
  match jobs with
  | [] => ret Continue
  | j :: later =>
      ctl <- run_job j ;;
      match ctl with
      | Continue => job_loop later
      | Break => ret Break
      end
  end.

(** Clock readings and Slack outcomes outside the jobs. *)
Record world : Type := mkWorld {
  w_start : Q;                  (* time.time() in __init__ *)
  w_init_report : result unit;  (* slack.update_post in __init__ *)
  w_end : Q;                    (* time.time() on line 120 *)
  w_final_report : result unit; (* slack.update_post on line 126 *)
  w_crash_report : result unit; (* slack.update_post on line 159 *)
  w_ping : result unit          (* slack.ping_user on line 161 *)
}.

(** Lines 121-125. *)
Definition final_status (m : ProcessMonitor) : ProcessMonitor :=
  if Nat.eqb (completed m) (List.length (args m))
  then if Nat.eqb (failed m) 0
       then set_status COMPLETED m
       else set_status COMPLETED_WITH_ERRORS m
  else m.

(** Lines 120-126. *)
Definition finish (w : world) : M unit :=
  modify (fun m => set_real_time (w_end w - start m) m) ;;;
  modify final_status ;;;
  report (w_final_report w).

(** [run_jobs], lines 80-126. *)
Definition run_jobs (jobs : list job) (w : world) : M unit :=
  modify (set_status RUNNING) ;;;
  _ <- job_loop jobs ;;
  finish w.

(** [ProcessMonitor.__init__], lines 30-46. *)
Definition ProcessMonitor_init (cmd : list string) (jobs : list job) (w : world)
    : ProcessMonitor * result unit :=
  update_message EmptyText (w_init_report w)
    (mkMonitor cmd (map fst jobs) STARTED (RateLimiter_init 4) (w_start w)
       0 0 0 0 0 None []).

(** Lines 157-159: the bare [except]. *)
Definition crash_handler (w : world) : M unit :=
  modify (set_status CRASHED) ;;;
  report (w_crash_report w).

(** [main], lines 153-161. *)
Definition main (cmd : list string) (jobs : list job) (w : world)
    : ProcessMonitor * result unit :=
  match ProcessMonitor_init cmd jobs w with
  | (monitor, Ok _) =>
      (try_except (run_jobs jobs w) (fun _ => true) (crash_handler w) ;;;
       fun m => (record_call PingUser m, w_ping w)) monitor
  | (monitor, Raise e) => (monitor, Raise e)
  end.

(** The monitor after each iteration of the [for], in order. *)
Fixpoint job_loop_states (jobs : list job) (m : ProcessMonitor) : list ProcessMonitor :=
  match jobs with
  | [] => []
  | j :: later =>
      match run_job j m with
      | (m', Ok Continue) => m' :: job_loop_states later m'
      | (m', _) => [m']
      end
  end.

(** The monitor at the points of a run of [main]: once built, on entering
    the loop, after each iteration, and when [main] ends. *)
Definition run_states (cmd : list string) (jobs : list job) (w : world)
    : list ProcessMonitor :=
  match ProcessMonitor_init cmd jobs w with
  | (m0, Ok _) =>
      m0 :: set_status RUNNING m0
         :: job_loop_states jobs (set_status RUNNING m0)
         ++ [fst (main cmd jobs w)]
  | (m0, Raise _) => [m0]
  end.

(** The table a job ends with, when it runs to its end. *)
Definition job_table (j : job) : dict :=
  match je_spawn (snd j) with
  | Ok p =>
      match poll_loop p (je_start (snd j)) (je_ticks (snd j)) [] with
      | Ok d => d
      | Raise _ => []
      end
  | Raise _ => []
  end.

(** ** Lines 109-110 on binary64 numbers

    The accumulation of the totals with the numbers of the code: a table is
    the list of the (user, system) times of its processes, [sum] adds them
    from the left starting from 0, and each job adds its two sums to the
    totals.  (CPython 3.12 and later compensate the rounding inside one
    [sum]; on a table of one process both give that process's time.) *)
Module Binary64.

Record totals : Set := mkTotals {
  user_time : float;
  system_time : float
}.

Definition sum (l : list float) : float := fold_left PrimFloat.add l 0%float.

Definition fold_table (t : totals) (proc_stats : list (float * float)) : totals :=
  mkTotals (PrimFloat.add (user_time t) (sum (map fst proc_stats)))
           (PrimFloat.add (system_time t) (sum (map snd proc_stats))).

Definition fold_jobs (tables : list (list (float * float))) : totals :=
  fold_left fold_table tables (mkTotals 0%float 0%float).

(** Three jobs of one process each: 0.1, 0.2 and 0.3 seconds of user time
    (the binary64 numbers nearest to them), no system time. *)
Definition jobs_123 : list (list (float * float)) :=
  [[(0x1.999999999999ap-4%float, 0%float)];
   [(0x1.999999999999ap-3%float, 0%float)];
   [(0x1.3333333333333p-2%float, 0%float)]].

Definition jobs_321 : list (list (float * float)) := rev jobs_123.

End Binary64.

(** ** The length of the sleep, as a real number *)

Module Sleep.

Local Open Scope R_scope.

Definition log10 (x : R) : R := ln x / ln 10.

(** [math.log10]: a [ValueError] outside [0 < x]. *)
Definition math_log10 (x : R) : result R :=
  if Rlt_dec 0 x then Ok (log10 x) else Raise ValueError.

(** [time.sleep]: a [ValueError] on a negative length. *)
Definition time_sleep (secs : R) (wake : result unit) : result unit :=
  if Rlt_dec secs 0 then Raise ValueError else wake.

(** Line 103: the length passed to [time.sleep], for [elapsed] the value of
    [time.time() - job_start]. *)
Definition sleep_interval (elapsed : R) : result R := math_log10 (elapsed + 1).

End Sleep.

(** ** Vocabulary of the statements *)

(** The sums line 109 and line 110 add to the totals. *)
Definition job_user (d : dict) : Q := sum (map user (values d)).
Definition job_system (d : dict) : Q := sum (map system (values d)).

(** What an exception raised in the [try] of lines 84-118 leads to: the
    handler of line 115 for a [KeyboardInterrupt], the way out of [run_jobs]
    for anything else. *)
Definition on_raise (e : exn) (m : ProcessMonitor) : ProcessMonitor * result loop_ctl :=
  if is_KeyboardInterrupt e
  then match proc m with
       | Some p => (set_status INTERRUPTED (record_call (Terminate p) m), Ok Break)
       | None => (m, Raise UnboundLocalError)
       end
  else (m, Raise e).

(** The monitor once the job is counted and the gate consulted. *)
Definition counted (arg : string) (je : job_env) (p : Process) (d : dict)
    (m : ProcessMonitor) : ProcessMonitor :=
  let m3 := account (je_returncode je) d (je_done je)
              (set_proc p (record_call (Popen (command m ++ [arg])) m)) in
  set_rate_limiter (snd (RateLimiter_call (je_gate_now je) (rate_limiter m3))) m3.

(** The attributes no iteration writes. *)
Definition same_frame (m m' : ProcessMonitor) : Prop :=
  args m' = args m /\ command m' = command m /\ start m' = start m.

(** The counters and totals are untouched. *)
Definition same_totals (m m' : ProcessMonitor) : Prop :=
  completed m' = completed m /\ failed m' = failed m /\
  user_time m' = user_time m /\ system_time m' = system_time m.

(** Nothing but the status, the clock, the gate and the log differs. *)
Definition same_counts (m m' : ProcessMonitor) : Prop :=
  same_frame m m' /\ same_totals m m'.

(** The job with table [d] and exit code [rc] has been counted once. *)
Definition counted_once (rc : Z) (d : dict) (m m' : ProcessMonitor) : Prop :=
  completed m' = (completed m + 1)%nat /\
  failed m' = (failed m + (if Z.eqb rc 0 then 0 else 1))%nat /\
  user_time m' = user_time m + job_user d /\
  system_time m' = system_time m + job_system d.

(** A member is alive when its sample comes back, and has exited (or cannot
    be read) when [cpu_times()] raises a [psutil.Error]. *)
Definition alive (cpu_times : Process -> result pcputimes) (pc : Process) : Prop :=
  exists s, cpu_times pc = Ok s.

Definition exited (cpu_times : Process -> result pcputimes) (pc : Process) : Prop :=
  exists e, cpu_times pc = Raise e /\ is_psutil_Error e = true.

(** Cpu times are not negative. *)
Definition nonneg_times (s : pcputimes) : Prop := 0 <= user s /\ 0 <= system s.

Definition nonneg_tick (tk : tick) : Prop :=
  forall pc s, tk_cpu_times tk pc = Ok s -> nonneg_times s.

Definition nonneg_job (j : job) : Prop := Forall nonneg_tick (je_ticks (snd j)).

Definition nonneg_dict (d : dict) : Prop :=
  Forall (fun kv => nonneg_times (snd kv)) d.

(** Both totals of [m'] are at least those of [m]. *)
Definition times_le (m m' : ProcessMonitor) : Prop :=
  user_time m <= user_time m' /\ system_time m <= system_time m'.

Local Open Scope string_scope.
(** ** slack_wrapper.SlackClientWrapper *)

(** How a call of the Slack client ends: it returns, it raises
    [SlackApiError], or it raises something else. *)
Inductive api (A : Type) : Type :=
| Returned (a : A)
| SlackApiError
| Failed (e : exn).

Arguments Returned {A} a.
Arguments SlackApiError {A}.
Arguments Failed {A} e.

(** The two keys of a channel the wrapper reads. *)
Record channel : Set := mkChannel {
  ch_name : string;
  ch_id : string
}.

(** The posts the wrapper asks the client for, and its [logger.error]s. *)
Inductive slack_event : Set :=
| ChatPostMessage (chan : string) (thread_ts : option string) (text : string)
| ChatUpdate (chan : string) (ts : string) (text : string)
| LoggerError.

Record SlackClientWrapper : Set := mkSlack {
  slack_user_id : string;
  slack_bot_token : string;
  channel_id : option string;
  base_ts : option string
}.

(** Lines 43-45: the first channel of a page with the wanted name. *)
Fixpoint find_channel (channel_name : string) (channels : list channel)
    : option string :=
  match channels with
  | [] => None
  | c :: later =>
      if String.eqb (ch_name c) channel_name then Some (ch_id c)
      else find_channel channel_name later
  end.

(** [_get_channel_id], lines 40-49.  [pages] holds how the call of
    [conversations_list] and then each fetch of a further page end; pages
    after a match, or after an exception, are never asked for. *)
Fixpoint get_channel_id (channel_name : string) (pages : list (api (list channel)))
    : list slack_event * result (option string) :=
  match pages with
  | [] => ([], Ok None)
  | Returned channels :: later =>
      match find_channel channel_name channels with
      | Some id => ([], Ok (Some id))
      | None => get_channel_id channel_name later
      end
  | SlackApiError :: _ => ([LoggerError], Ok None)
  | Failed e :: _ => ([], Raise e)
  end.

(** [_post_base_message], lines 51-69; [who] is
    [getpass.getuser() + "@" + platform.node()]. *)
Definition post_base_message (chan : option string) (who : string)
    (posted : api string) : list slack_event * result (option string) :=
  match chan with
  | None => ([], Ok None)
  | Some c =>
      let call := ChatPostMessage c None (who ++ ":") in
      match posted with
      | Returned ts => ([call], Ok (Some ts))
      | SlackApiError => ([call; LoggerError], Ok None)
      | Failed e => ([call], Raise e)
      end
  end.

(** [update_post], lines 71-82. *)
Definition update_post (sl : SlackClientWrapper) (text : string)
    (updated : api unit) : list slack_event * result unit :=
  match channel_id sl, base_ts sl with
  | Some c, Some ts =>
      let call := ChatUpdate c ts text in
      match updated with
      | Returned _ => ([call], Ok tt)
      | SlackApiError => ([call; LoggerError], Ok tt)
      | Failed e => ([call], Raise e)
      end
  | _, _ => ([], Ok tt)
  end.

(** [ping_user], lines 84-95. *)
Definition ping_user (sl : SlackClientWrapper) (text : string)
    (posted : api unit) : list slack_event * result unit :=
  match channel_id sl, base_ts sl with
  | Some c, Some ts =>
      let call := ChatPostMessage c (Some ts)
                    ("<@" ++ slack_user_id sl ++ "> " ++ text) in
      match posted with
      | Returned _ => ([call], Ok tt)
      | SlackApiError => ([call; LoggerError], Ok tt)
      | Failed e => ([call], Raise e)
      end
  | _, _ => ([], Ok tt)
  end.

(** How the constructor ends: with the object, with the [KeyError] of a
    variable missing from [os.environ], or with another exception. *)
Inductive built : Set :=
| Built (sl : SlackClientWrapper)
| KeyError (key : string)
| Escaped (e : exn).

(** What the world answers to the calls of the constructor. *)
Record slack_env : Set := mkSlackEnv {
  se_environ : string -> option string;   (* os.environ *)
  se_who : string;                         (* user@node *)
  se_pages : list (api (list channel));    (* conversations_list *)
  se_posted : api string;                  (* the base chat_postMessage: its ts *)
  se_pinged : api unit                     (* the ping of debug mode *)
}.

(** [SlackClientWrapper.__init__], lines 25-38. *)
Definition SlackClientWrapper_init (target_channel : string) (debug : bool)
    (env : slack_env) : list slack_event * built :=
  match se_environ env "SLACK_USER_ID" with
  | None => ([], KeyError "SLACK_USER_ID")
  | Some uid =>
      match se_environ env "SLACK_BOT_TOKEN" with
      | None => ([], KeyError "SLACK_BOT_TOKEN")
      | Some token =>
          match get_channel_id target_channel (se_pages env) with
          | (log1, Raise e) => (log1, Escaped e)
          | (log1, Ok chan) =>
              let log2 := match chan with
                          | None => (log1 ++ [LoggerError])%list
                          | Some _ => log1
                          end in
              match post_base_message chan (se_who env) (se_posted env) with
              | (log3, Raise e) => ((log2 ++ log3)%list, Escaped e)
              | (log3, Ok ts) =>
                  let sl := mkSlack uid token chan ts in
                  match debug, ts with
                  | true, Some t =>
                      match ping_user sl t (se_pinged env) with
                      | (log4, Ok _) => ((log2 ++ log3 ++ log4)%list, Built sl)
                      | (log4, Raise e) => ((log2 ++ log3 ++ log4)%list, Escaped e)
                      end
                  | _, _ => ((log2 ++ log3)%list, Built sl)
                  end
              end
          end
      end
  end.

(** The channels of the pages that come back before anything is raised. *)
Fixpoint listed (pages : list (api (list channel))) : list channel :=
  match pages with
  | Returned channels :: later => (channels ++ listed later)%list
  | _ => []
  end.

(** An event that sends something to Slack. *)
Definition is_post (ev : slack_event) : bool :=
  match ev with
  | LoggerError => false
  | _ => true
  end.

(** ** The command line: [str.split()] and [' '.join]

    Strings are sequences of code points below 256. *)

(** [str.isspace] on one such code point. *)
Definition isspace (c : ascii) : bool :=
  let n := nat_of_ascii c in
  ((9 <=? n)%nat && (n <=? 13)%nat) || ((28 <=? n)%nat && (n <=? 32)%nat)
  || (n =? 133)%nat || (n =? 160)%nat.

(** [str.split()] with no argument: the maximal runs without whitespace;
    [tok] is the run being read. *)
Fixpoint split_from (tok : string) (s : string) : list string :=
  match s with
  | EmptyString =>
      match tok with
      | EmptyString => []
      | _ => [tok]
      end
  | String c s' =>
      if isspace c
      then match tok with
           | EmptyString => split_from EmptyString s'
           | _ => tok :: split_from EmptyString s'
           end
      else split_from (tok ++ String c EmptyString) s'
  end.

Definition str_split (s : string) : list string := split_from EmptyString s.

(** [parse_args], lines 140-147, on what [argparse] hands over. *)
Definition parse_args (command_arg : string) (arguments : list string)
    : list string * list string :=
  (str_split command_arg, arguments).

(** The command as [update_message] shows it: [' '.join(self.command)]. *)
Definition shown_command (cmd : list string) : string := String.concat " " cmd.

Fixpoint space_free (s : string) : bool :=
  match s with
  | EmptyString => true
  | String c s' => negb (isspace c) && space_free s'
  end.

Fixpoint all_space (s : string) : bool :=
  match s with
  | EmptyString => true
  | String c s' => isspace c && all_space s'
  end.

(** A token: not empty, and without whitespace. *)
Definition token (t : string) : Prop := t <> EmptyString /\ space_free t = true.

(** ** More vocabulary *)

(** The times, among the successive calls of the limiter, that it lets
    through. *)
Fixpoint allowed_times (times : list Q) (r : RateLimiter) : list Q :=
  match times with
  | [] => []
  | now :: later =>
      if fst (RateLimiter_call now r)
      then now :: allowed_times later (snd (RateLimiter_call now r))
      else allowed_times later (snd (RateLimiter_call now r))
  end.

(** The command lines handed to [subprocess.Popen], in order. *)
Fixpoint launches (evs : list event) : list (list string) :=
  match evs with
  | [] => []
  | Popen cmd :: later => cmd :: launches later
  | _ :: later => launches later
  end.

(** The number of pings. *)
Fixpoint pings (evs : list event) : nat :=
  match evs with
  | [] => 0%nat
  | PingUser :: later => S (pings later)
  | _ :: later => pings later
  end.

(** The job exits with a code other than 0. *)
Definition exit_failed (j : job) : bool := negb (Z.eqb (je_returncode (snd j)) 0).

(** The same job with another exit code. *)
Definition with_returncode (rc : Z) (je : job_env) : job_env :=
  mkJobEnv (je_start je) (je_spawn je) (je_ticks je) rc (je_done je)
    (je_gate_now je) (je_report je).

(** A status in which a run can end. *)
Definition terminal (s : MonitorStatus) : Prop :=
  s = COMPLETED \/ s = COMPLETED_WITH_ERRORS \/ s = INTERRUPTED \/ s = CRASHED.

(** [pc] is sampled at the poll [tk]: it is listed and its times come back. *)
Definition sampled (p : Process) (tk : tick) (pc : Process) (s : pcputimes) : Prop :=
  In pc (p :: tk_children tk) /\ tk_cpu_times tk pc = Ok s.

(** [pc] is missed at the poll [tk]: not listed, or listed and gone. *)
Definition missed (p : Process) (tk : tick) (pc : Process) : Prop :=
  ~ In pc (p :: tk_children tk) \/ exists e, tk_cpu_times tk pc = Raise e.

(** An external call that is neither a launch nor a ping. *)
Definition quiet (ev : event) : bool :=
  match ev with
  | Popen _ | PingUser => false
  | _ => true
  end.

(** The number of messages sent to Slack. *)
Fixpoint posts (evs : list event) : nat :=
  match evs with
  | [] => 0%nat
  | UpdatePost _ _ :: later => S (posts later)
  | _ :: later => posts later
  end.

(** The readings of the clock at the gate, job after job. *)
Definition gate_times (jobs : list job) : list Q :=
  map (fun j => je_gate_now (snd j)) jobs.

(** The limiter after the successive calls at [times]. *)
Fixpoint RateLimiter_after (times : list Q) (r : RateLimiter) : RateLimiter :=
  match times with
  | [] => r
  | now :: later => RateLimiter_after later (snd (RateLimiter_call now r))
  end.

(** The percentage line 75 shows when [completed] jobs out of [total] are
    counted: lines 70 and 75 on their own. *)
Definition shown_pct (completed total : nat) : Z :=
  py_int (PrimFloat.mul (PrimFloat.div (py_float completed) (py_float total))
            100%float).

(** The exact percentage, rounded down. *)
Definition floor_pct (completed total : nat) : Z :=
  (100 * Z.of_nat completed / Z.of_nat total)%Z.

(** The shown percentage lies between 0 and 100, is 100 when all jobs are
    counted, and is the exact one rounded down, or one less than an exact
    percentage that is a whole number. *)
Definition pct_ok (total completed : nat) : bool :=
  let shown := shown_pct completed total in
  let exact := floor_pct completed total in
  (0 <=? shown)%Z && (shown <=? 100)%Z &&
  (exact - 1 <=? shown)%Z && (shown <=? exact)%Z &&
  (if Nat.eqb completed total then (shown =? 100)%Z else true) &&
  (if (shown =? exact)%Z then true
   else (Z.of_nat total * exact =? 100 * Z.of_nat completed)%Z).

(** [pct_ok] for every job list of 1 to [n] jobs and every count. *)
Definition pct_ok_upto (n : nat) : bool :=
  forallb (fun total => forallb (pct_ok total) (seq 0 (S total))) (seq 1 n).

(** A poll at which nothing goes wrong: the clock is not behind the start
    of the job, every member answers or is gone, the sleep returns. *)
Definition steady (p : Process) (job_start : Q) (tk : tick) : Prop :=
  job_start <= tk_now tk /\
  (forall pc, In pc (p :: tk_children tk) ->
              alive (tk_cpu_times tk) pc \/ exited (tk_cpu_times tk) pc) /\
  tk_sleep tk = Ok tt.

Local Close Scope string_scope.

(** ** Scenarios *)

Local Open Scope string_scope.

(** A world whose clock advances and whose Slack calls return. *)
Definition calm : world := mkWorld 1000 (Ok tt) 1010 (Ok tt) (Ok tt) (Ok tt).

(** A poll that finds the child alone, with cpu times [u] and [s]. *)
Definition one_tick (u s now : Q) (wake : result unit) : tick :=
  mkTick [] (fun _ => Ok (mkTimes u s)) now wake.

(** ["a"] exits with code 0. *)
Definition job_a : job :=
  ("a", mkJobEnv 1001 (Ok 11%nat) [one_tick (1#10) (1#20) 1001 (Ok tt)]
          0 1003 1003 (Ok tt)).

(** ["b"] exits with code 1. *)
Definition job_b : job :=
  ("b", mkJobEnv 1003 (Ok 12%nat) [one_tick (2#10) (1#20) 1003 (Ok tt)]
          1 1005 1005 (Ok tt)).

(** ["a"] is running when the interrupt arrives, during the sleep. *)
Definition job_interrupted : job :=
  ("a", mkJobEnv 1001 (Ok 11%nat)
          [one_tick (1#10) (1#20) 1001 (Raise KeyboardInterrupt)]
          0 1003 1003 (Ok tt)).

(** The command does not exist: [subprocess.Popen] raises
    [FileNotFoundError], an [OSError]. *)
Definition job_not_found : job :=
  ("a", mkJobEnv 1001 (Raise OSError) [] 0 1003 1003 (Ok tt)).

(** A poll of the tree of child 11 with descendants 12 and 13, where 12 has
    exited since it was listed. *)
Definition tick_child_gone : tick :=
  mkTick [12%nat; 13%nat]
    (fun pc => if Nat.eqb pc 12 then Raise NoSuchProcess
               else Ok (mkTimes (1#10) (1#20)))
    1001 (Ok tt).

(** ["a"] has exited and has been counted when the interrupt arrives, while
    its progress report is being sent. *)
Definition job_report_interrupted : job :=
  ("a", mkJobEnv 1001 (Ok 11%nat) [one_tick (1#10) (1#20) 1001 (Ok tt)]
          0 1003 1003 (Raise KeyboardInterrupt)).

(** The environment of the wrapper: both variables set. *)
Definition slack_environ (key : string) : option string :=
  if String.eqb key "SLACK_USER_ID" then Some "U1"
  else if String.eqb key "SLACK_BOT_TOKEN" then Some "xoxb"
  else None.

(** The channel is on the second page (and a namesake after it); a third
    page would fail. *)
Definition slack_env_found : slack_env :=
  mkSlackEnv slack_environ "me@host"
    [Returned [mkChannel "general" "C1"];
     Returned [mkChannel "webhooks" "C2"; mkChannel "webhooks" "C9"];
     Failed OSError]
    (Returned "17.5") (Returned tt).

(** Slack refuses the listing before the channel shows up. *)
Definition slack_env_lost : slack_env :=
  mkSlackEnv slack_environ "me@host"
    [Returned [mkChannel "general" "C1"]; SlackApiError]
    (Returned "17.5") (Returned tt).

(** ["quick"] exits with code 3 before the first poll. *)
Definition job_no_sample : job :=
  ("quick", mkJobEnv 1001 (Ok 21%nat) [] 3 1001 1001 (Ok tt)).

(** A poll of the tree of child 11 with its descendant 12, both alive. *)
Definition tick_all_alive : tick :=
  mkTick [12%nat]
    (fun pc => if Nat.eqb pc 12 then Ok (mkTimes (3#100) (1#100))
               else Ok (mkTimes (1#20) (1#50)))
    1001 (Ok tt).

(** The interrupt arrives inside [subprocess.Popen], before the child of
    ["a"] exists. *)
Definition job_launch_interrupted : job :=
  ("a", mkJobEnv 1001 (Raise KeyboardInterrupt) [] 0 1003 1003 (Ok tt)).

(** 29 jobs out of 100 are counted, three seconds into the run. *)
Definition monitor_29_of_100 : ProcessMonitor :=
  mkMonitor ["cmd"] (repeat "a" 100) RUNNING (RateLimiter_init 4) 1000
    29 0 (1#10) (1#20) 3 (Some 11%nat) [].

(** A poll at which the clock reads 1001.5, before a job started at 1002. *)
Definition tick_clock_back : tick :=
  mkTick [] (fun _ => Ok (mkTimes (1#20) (1#50))) (2003#2) (Ok tt).

(** ["b"] starts when the clock reads 1003; at its first poll the clock has
    been set back and reads 1002.5. *)
Definition job_clock_back : job :=
  ("b", mkJobEnv 1003 (Ok 12%nat)
          [mkTick [] (fun _ => Ok (mkTimes (1#20) (1#50))) (2005#2) (Ok tt)]
          0 1005 1005 (Ok tt)).

Local Close Scope string_scope.

(** * Proofs *)



(** ** One iteration of the loop, case by case *)

Ltac unfold_run :=
  unfold run_job, try_except, job_body, report, update_message, spawn,
    rate_limiter_call, proc_terminate, bind, lift, modify, ret.

Lemma run_job_spawn_raises (arg : string) (je : job_env) (m : ProcessMonitor) (e : exn) :
  je_spawn je = Raise e ->
  run_job (arg, je) m = on_raise e (record_call (Popen (command m ++ [arg])) m).
Proof.
  intro Hs. unfold_run. rewrite Hs. unfold on_raise.
  destruct (is_KeyboardInterrupt e); [destruct (proc _) |]; reflexivity.
Qed.

Lemma run_job_poll_raises (arg : string) (je : job_env) (m : ProcessMonitor)
    (p : Process) (e : exn) :
  je_spawn je = Ok p ->
  poll_loop p (je_start je) (je_ticks je) [] = Raise e ->
  run_job (arg, je) m =
    on_raise e (set_proc p (record_call (Popen (command m ++ [arg])) m)).
Proof.
  intros Hs Hp. unfold_run. rewrite Hs, Hp. unfold on_raise.
  destruct (is_KeyboardInterrupt e); reflexivity.
Qed.

Lemma run_job_counted (arg : string) (je : job_env) (m : ProcessMonitor)
    (p : Process) (d : dict) :
  je_spawn je = Ok p ->
  poll_loop p (je_start je) (je_ticks je) [] = Ok d ->
  let m4 := counted arg je p d m in
  run_job (arg, je) m =
    if fst (RateLimiter_call (je_gate_now je)
              (rate_limiter (account (je_returncode je) d (je_done je) m)))
    then match get_stats_str m4 with
         | Ok s =>
             let m5 := record_call (UpdatePost (status m4) (StatsText s)) m4 in
             match je_report je with
             | Ok _ => (m5, Ok Continue)
             | Raise e => on_raise e m5
             end
         | Raise e => on_raise e m4
         end
    else (m4, Ok Continue).
Proof.
  intros Hs Hp. unfold counted. unfold_run. rewrite Hs, Hp. simpl.
  destruct (RateLimiter_call _ _) as [[|] r]; simpl; [| reflexivity].
  destruct (get_stats_str _) as [s | e]; simpl.
  - destruct (je_report je) as [u | e]; simpl; [reflexivity |].
    unfold on_raise. destruct (is_KeyboardInterrupt e); reflexivity.
  - unfold on_raise. destruct (is_KeyboardInterrupt e); reflexivity.
Qed.

Lemma on_raise_effect (e : exn) (m m' : ProcessMonitor) (r : result loop_ctl) :
  on_raise e m = (m', r) ->
  same_frame m m' /\ same_totals m m' /\ r <> Ok Continue.
Proof.
  unfold on_raise, same_frame, same_totals.
  destruct (is_KeyboardInterrupt e); [destruct (proc m) |];
    intro H; inversion H; subst; simpl; repeat split; discriminate.
Qed.

Lemma run_job_effect (j : job) (m m' : ProcessMonitor) (r : result loop_ctl) :
  run_job j m = (m', r) ->
  same_frame m m' /\
  ((same_totals m m' /\ r <> Ok Continue) \/
   (exists p d,
      je_spawn (snd j) = Ok p /\
      poll_loop p (je_start (snd j)) (je_ticks (snd j)) [] = Ok d /\
      counted_once (je_returncode (snd j)) d m m')).
Proof.
  destruct j as [arg je]. simpl.
  destruct (je_spawn je) as [p | e] eqn:Hs.
  - destruct (poll_loop p (je_start je) (je_ticks je) []) as [d | e] eqn:Hp.
    + rewrite (run_job_counted arg je m p d Hs Hp). simpl.
      assert (Hc : same_frame m (counted arg je p d m) /\
                   counted_once (je_returncode je) d m (counted arg je p d m)).
      { unfold same_frame, counted_once, counted. simpl. repeat split. }
      destruct Hc as [Hf Hc]. intro H.
      assert (Hm : same_frame (counted arg je p d m) m' /\
                   same_totals (counted arg je p d m) m').
      { revert H. destruct (fst _).
        - destruct (get_stats_str _) as [s | e].
          + destruct (je_report je) as [u | e]; intro H.
            * inversion H; subst. unfold same_frame, same_totals. simpl.
              repeat split.
            * apply on_raise_effect in H. destruct H as (Hf' & Ht' & _).
              revert Hf' Ht'. unfold same_frame, same_totals. simpl. tauto.
          + intro H. apply on_raise_effect in H. tauto.
        - intro H. inversion H; subst. unfold same_frame, same_totals.
          repeat split. }
      destruct Hm as [Hf' Ht'].
      unfold same_frame, same_totals, counted_once in *.
      split; [intuition congruence |].
      right. exists p, d. intuition congruence.
    + rewrite (run_job_poll_raises arg je m p e Hs Hp). intro H.
      apply on_raise_effect in H. destruct H as (Hf & Ht & Hr).
      revert Hf Ht. unfold same_frame, same_totals. simpl. intros Hf Ht.
      split; [exact Hf |]. left. split; assumption.
  - rewrite (run_job_spawn_raises arg je m e Hs). intro H.
    apply on_raise_effect in H. destruct H as (Hf & Ht & Hr).
    revert Hf Ht. unfold same_frame, same_totals. simpl. intros Hf Ht.
    split; [exact Hf |]. left. split; assumption.
Qed.

(** A normal end of the iteration has counted the job. *)
Lemma run_job_Continue (j : job) (m m' : ProcessMonitor) :
  run_job j m = (m', Ok Continue) ->
  same_frame m m' /\
  exists p d,
    je_spawn (snd j) = Ok p /\
    poll_loop p (je_start (snd j)) (je_ticks (snd j)) [] = Ok d /\
    counted_once (je_returncode (snd j)) d m m'.
Proof.
  intro H. apply run_job_effect in H. destruct H as [Hf [[_ Hr] | Hc]].
  - exfalso. apply Hr. reflexivity.
  - split; assumption.
Qed.

(** ** The loop *)

Lemma job_loop_cons (j : job) (later : list job) (m : ProcessMonitor) :
  job_loop (j :: later) m =
    match run_job j m with
    | (m', Ok Continue) => job_loop later m'
    | (m', Ok Break) => (m', Ok Break)
    | (m', Raise e) => (m', Raise e)
    end.
Proof.
  simpl. unfold bind. destruct (run_job j m) as [m' [[|] | e]]; reflexivity.
Qed.

Lemma job_loop_app (before rest : list job) (m m1 : ProcessMonitor) :
  job_loop before m = (m1, Ok Continue) ->
  job_loop (before ++ rest) m = job_loop rest m1.
Proof.
  revert m. induction before as [| j before IH]; intros m H.
  - simpl in H. unfold ret in H. inversion H. reflexivity.
  - rewrite <- app_comm_cons. rewrite job_loop_cons in *.
    destruct (run_job j m) as [m' [[|] | e]]; try discriminate.
    apply IH. exact H.
Qed.

Lemma last_cons_default {A : Type} (x : A) (l : list A) (d d' : A) :
  last (x :: l) d = last (x :: l) d'.
Proof.
  revert x. induction l as [| y l IH]; intro x; [reflexivity |].
  change (last (y :: l) d = last (y :: l) d'). apply IH.
Qed.

(** The last state of the trajectory is the state the loop ends in. *)
Lemma job_loop_states_last (jobs : list job) (m : ProcessMonitor) :
  fst (job_loop jobs m) = last (job_loop_states jobs m) m.
Proof.
  revert m. induction jobs as [| j later IH]; intro m.
  - reflexivity.
  - rewrite job_loop_cons. simpl job_loop_states.
    destruct (run_job j m) as [m' [[|] | e]]; try reflexivity.
    rewrite IH. simpl. destruct (job_loop_states later m'); [reflexivity |].
    apply last_cons_default.
Qed.

Lemma job_loop_Continue (jobs : list job) (m m' : ProcessMonitor) :
  job_loop jobs m = (m', Ok Continue) ->
  same_frame m m' /\ completed m' = (completed m + List.length jobs)%nat.
Proof.
  revert m. induction jobs as [| j later IH]; intros m H.
  - simpl in H. unfold ret in H. inversion H; subst.
    unfold same_frame. repeat split. simpl. lia.
  - rewrite job_loop_cons in H.
    destruct (run_job j m) as [m1 [[|] | e]] eqn:Hj; try discriminate.
    apply run_job_Continue in Hj.
    destruct Hj as [Hf (p & d & _ & _ & Hc & _)].
    apply IH in H. destruct H as [Hf' Hc'].
    unfold same_frame in *. simpl. split; [intuition congruence | lia].
Qed.

(** ** The report body *)

Lemma get_stats_str_no_jobs (m : ProcessMonitor) :
  args m = [] -> get_stats_str m = Raise ZeroDivisionError.
Proof.
  intro H. unfold get_stats_str. rewrite H. reflexivity.
Qed.

Lemma py_div_zero (x y : Q) : y == 0 -> py_div x y = Raise ZeroDivisionError.
Proof.
  intro H. unfold py_div. apply Qeq_bool_iff in H. rewrite H. reflexivity.
Qed.

Lemma py_div_nonzero (x y : Q) : ~ y == 0 -> py_div x y = Ok (x / y).
Proof.
  intro H. unfold py_div. destruct (Qeq_bool y 0) eqn:E; [| reflexivity].
  apply Qeq_bool_iff in E. contradiction.
Qed.

Lemma get_stats_str_zero_time (m : ProcessMonitor) :
  real_time m == 0 -> get_stats_str m = Raise ZeroDivisionError.
Proof.
  intro H. unfold get_stats_str.
  destruct (py_truediv _ _) as [q | e] eqn:E.
  - rewrite (py_div_zero _ _ H). reflexivity.
  - unfold py_truediv in E. destruct (Nat.eqb _ 0); inversion E. reflexivity.
Qed.

Lemma get_stats_str_defined (m : ProcessMonitor) :
  args m <> [] -> ~ real_time m == 0 -> exists s, get_stats_str m = Ok s.
Proof.
  intros Ha Ht. unfold get_stats_str, py_truediv.
  destruct (args m) as [| a l]; [contradiction |].
  cbn [List.length Nat.eqb].
  rewrite (py_div_nonzero _ _ Ht). eexists. reflexivity.
Qed.

(** ** [run_jobs] and [main], unfolded *)

Lemma ProcessMonitor_init_eq (cmd : list string) (jobs : list job) (w : world) :
  ProcessMonitor_init cmd jobs w =
    (mkMonitor cmd (map fst jobs) STARTED (RateLimiter_init 4) (w_start w)
       0 0 0 0 0 None [UpdatePost STARTED EmptyText],
     w_init_report w).
Proof. reflexivity. Qed.

Lemma report_eq (sent : result unit) (m : ProcessMonitor) :
  report sent m =
    match get_stats_str m with
    | Ok s => (record_call (UpdatePost (status m) (StatsText s)) m, sent)
    | Raise e => (m, Raise e)
    end.
Proof.
  unfold report, bind, update_message. destruct (get_stats_str m); reflexivity.
Qed.

Lemma finish_eq (w : world) (m : ProcessMonitor) :
  finish w m = report (w_final_report w)
                 (final_status (set_real_time (w_end w - start m) m)).
Proof. reflexivity. Qed.

Lemma run_jobs_eq (jobs : list job) (w : world) (m : ProcessMonitor) :
  run_jobs jobs w m =
    match job_loop jobs (set_status RUNNING m) with
    | (m1, Ok _) => finish w m1
    | (m1, Raise e) => (m1, Raise e)
    end.
Proof.
  unfold run_jobs, bind, modify.
  destruct (job_loop jobs (set_status RUNNING m)) as [m1 [c | e]]; reflexivity.
Qed.

Lemma main_eq (cmd : list string) (jobs : list job) (w : world) :
  main cmd jobs w =
    match ProcessMonitor_init cmd jobs w with
    | (m0, Ok _) =>
        match run_jobs jobs w m0 with
        | (m2, Ok _) => (record_call PingUser m2, w_ping w)
        | (m2, Raise _) =>
            match report (w_crash_report w) (set_status CRASHED m2) with
            | (m3, Ok _) => (record_call PingUser m3, w_ping w)
            | (m3, Raise e) => (m3, Raise e)
            end
        end
    | (m0, Raise e) => (m0, Raise e)
    end.
Proof.
  unfold main. destruct (ProcessMonitor_init cmd jobs w) as [m0 [u | e]];
    [| reflexivity].
  unfold crash_handler, try_except, bind, modify.
  destruct (run_jobs jobs w m0) as [m2 [u2 | e2]]; [reflexivity |].
  destruct (report (w_crash_report w) (set_status CRASHED m2)) as [m3 [u3 | e3]];
    reflexivity.
Qed.

(** The final report does not read the rate limiter. *)
Lemma finish_ignores_gate (w : world) (m : ProcessMonitor) (r : RateLimiter) :
  calls (fst (finish w (set_rate_limiter r m))) = calls (fst (finish w m)) /\
  snd (finish w (set_rate_limiter r m)) = snd (finish w m).
Proof.
  rewrite !finish_eq, !report_eq.
  assert (E : get_stats_str
                (final_status
                   (set_real_time (w_end w - start (set_rate_limiter r m))
                      (set_rate_limiter r m))) =
              get_stats_str (final_status (set_real_time (w_end w - start m) m))).
  { unfold final_status. simpl.
    destruct (Nat.eqb (completed m) (List.length (args m)));
      [destruct (Nat.eqb (failed m) 0) |]; reflexivity. }
  rewrite E.
  destruct (get_stats_str (final_status (set_real_time (w_end w - start m) m)));
    simpl; [| split; [| reflexivity]].
  - split; [| reflexivity]. unfold final_status. simpl.
    destruct (Nat.eqb (completed m) (List.length (args m)));
      [destruct (Nat.eqb (failed m) 0) |]; reflexivity.
  - unfold final_status. simpl.
    destruct (Nat.eqb (completed m) (List.length (args m)));
      [destruct (Nat.eqb (failed m) 0) |]; reflexivity.
Qed.

(** ** The rate limiter *)

(** C5: a call at time [now] returns true and sets [last_ok] to [now] exactly
    when [now - last_ok > period_sec], and otherwise returns false and leaves
    the limiter as it was.  Hence, for a period [C], when a first call at [t1]
    is let through, a second call at [t2] within [C] seconds of it is
    refused and a third call at [t3] more than [C] seconds after [t1] (so in
    particular more than [C] seconds after a later second call) is let
    through again. *)
Theorem RateLimiter_call_spec :
  (forall (now : Q) (r : RateLimiter),
     (period_sec r < now - last_ok r /\
      RateLimiter_call now r = (true, mkRateLimiter (period_sec r) now)) \/
     (~ period_sec r < now - last_ok r /\
      RateLimiter_call now r = (false, r))) /\
  (forall (C t1 t2 t3 : Q) (r0 : RateLimiter),
     period_sec r0 = C ->
     C < t1 - last_ok r0 ->
     t2 - t1 <= C ->
     C < t3 - t1 ->
     let (b1, r1) := RateLimiter_call t1 r0 in
     let (b2, r2) := RateLimiter_call t2 r1 in
     let (b3, r3) := RateLimiter_call t3 r2 in
     b1 = true /\ b2 = false /\ b3 = true /\
     last_ok r1 = t1 /\ last_ok r2 = t1 /\ last_ok r3 = t3).
Proof.
  split.
  - intros now r. unfold RateLimiter_call.
    destruct (Qlt_le_dec (period_sec r) (now - last_ok r)) as [Hlt | Hle].
    + left. split; [exact Hlt | reflexivity].
    + right. split; [| reflexivity]. intro Hlt.
      exact (Qlt_not_le _ _ Hlt Hle).
  - intros C t1 t2 t3 r0 HC H1 H2 H3. unfold RateLimiter_call. rewrite HC.
    destruct (Qlt_le_dec C (t1 - last_ok r0)) as [_ | Hle];
      [| exfalso; exact (Qlt_not_le _ _ H1 Hle)].
    simpl.
    destruct (Qlt_le_dec C (t2 - t1)) as [Hlt | _];
      [exfalso; exact (Qlt_not_le _ _ Hlt H2) |].
    simpl.
    destruct (Qlt_le_dec C (t3 - t1)) as [_ | Hle];
      [| exfalso; exact (Qlt_not_le _ _ H3 Hle)].
    simpl. repeat split.
Qed.

Lemma RateLimiter_call_spec_witness :
  let (b1, r1) := RateLimiter_call 1000 (RateLimiter_init 4) in
  let (b2, r2) := RateLimiter_call 1002 r1 in
  let (b3, r3) := RateLimiter_call 1005 r2 in
  b1 = true /\ b2 = false /\ b3 = true /\
  last_ok r1 = 1000 /\ last_ok r2 = 1000 /\ last_ok r3 = 1005.
Proof.
  apply (proj2 RateLimiter_call_spec 4 1000 1002 1005 (RateLimiter_init 4)).
  - reflexivity.
  - reflexivity.
  - vm_compute. discriminate.
  - reflexivity.
Defined.

(** ** The report body and the crash path *)

(** C1: the code has no guard.  At the failing input (the command does not
    exist, so [main] reaches its handler with [real_time] still [0.0]) the
    job list is not empty, the elapsed wall-clock time is zero and
    [get_stats_str] raises [ZeroDivisionError] instead of reporting 0%. *)
Theorem get_stats_str_raises_at_zero_real_time :
  let m0 := fst (ProcessMonitor_init ["nonexistent"%string] [job_not_found] calm) in
  let m := set_status CRASHED (fst (run_jobs [job_not_found] calm m0)) in
  args m = ["a"%string] /\ real_time m == 0 /\
  get_stats_str m = Raise ZeroDivisionError.
Proof.
  vm_compute. repeat split.
Qed.

(** A run that fails before its first job is counted, whatever the world
    and the exception: the body of the report cannot be computed in the
    handler of [main], which ends with [ZeroDivisionError]. *)
Lemma main_first_spawn_raises (cmd : list string) (arg : string) (je : job_env)
    (later : list job) (w : world) (e : exn) :
  w_init_report w = Ok tt ->
  je_spawn je = Raise e ->
  exists m,
    main cmd ((arg, je) :: later) w = (m, Raise ZeroDivisionError) /\
    status m = CRASHED /\
    calls m = [UpdatePost STARTED EmptyText; Popen (cmd ++ [arg])].
Proof.
  intros Hinit Hs.
  rewrite main_eq, ProcessMonitor_init_eq, Hinit, run_jobs_eq, job_loop_cons.
  rewrite (run_job_spawn_raises arg je _ e Hs). unfold on_raise.
  destruct (is_KeyboardInterrupt e); cbn [proc set_status record_call];
    rewrite report_eq, get_stats_str_zero_time by (simpl; reflexivity);
    eexists; repeat split.
Qed.

(** C8: the final report is lost when the run fails before [real_time] is
    first written.  With a command that does not exist, [main] marks the run
    [CRASHED], then the report body raises inside the handler: [main] ends
    with [ZeroDivisionError], and neither a final [update_post] nor the ping
    is ever called. *)
Theorem crash_before_first_job_is_not_reported :
  let (m, r) := main ["nonexistent"%string] [job_not_found] calm in
  r = Raise ZeroDivisionError /\ status m = CRASHED /\
  calls m = [UpdatePost STARTED EmptyText;
             Popen ["nonexistent"%string; "a"%string]].
Proof.
  vm_compute. repeat split.
Qed.

(** C10: with no job, every report body raises [ZeroDivisionError] on the
    completed percentage.  A run over an empty list leaves the loop at once,
    [run_jobs] sets [COMPLETED] and then raises while building its final
    report; the handler of [main] sets [CRASHED] and raises again, so [main]
    ends with the exception, having sent nothing after the first message. *)
Theorem empty_job_list_report_raises :
  (forall m : ProcessMonitor,
     args m = [] -> get_stats_str m = Raise ZeroDivisionError) /\
  (forall (cmd : list string) (w : world),
     w_init_report w = Ok tt ->
     exists m0 m1 m2,
       ProcessMonitor_init cmd [] w = (m0, Ok tt) /\
       run_jobs [] w m0 = (m1, Raise ZeroDivisionError) /\
       status m1 = COMPLETED /\
       main cmd [] w = (m2, Raise ZeroDivisionError) /\
       status m2 = CRASHED /\
       calls m2 = [UpdatePost STARTED EmptyText]).
Proof.
  split; [exact get_stats_str_no_jobs |].
  intros cmd w Hinit.
  unfold main, ProcessMonitor_init, update_message. rewrite Hinit.
  do 3 eexists. split; [reflexivity |].
  split; [reflexivity |].
  split; [reflexivity |].
  split; [reflexivity |].
  split; reflexivity.
Qed.

Lemma empty_job_list_report_raises_witness :
  exists m0 m1 m2,
    ProcessMonitor_init ["cmd"%string] [] calm = (m0, Ok tt) /\
    run_jobs [] calm m0 = (m1, Raise ZeroDivisionError) /\
    status m1 = COMPLETED /\
    main ["cmd"%string] [] calm = (m2, Raise ZeroDivisionError) /\
    status m2 = CRASHED /\
    calls m2 = [UpdatePost STARTED EmptyText].
Proof.
  apply (proj2 empty_job_list_report_raises ["cmd"%string] calm).
  reflexivity.
Defined.

(** ** Normal end of the loop *)

(** C3: when the loop runs through all jobs (no interrupt) and nothing
    raises, [completed] equals the number of jobs and the final status is
    [COMPLETED] if no job failed, [COMPLETED_WITH_ERRORS] otherwise; it is the
    status of the last message sent and the status [main] ends with.  For
    the jobs ["a"] (exit code 0) and ["b"] (exit code 1) the run ends
    [COMPLETED_WITH_ERRORS] with [completed = 2] and [failed = 1]. *)
Theorem run_jobs_final_status :
  (forall (cmd : list string) (jobs : list job) (w : world)
          (m0 m1 m2 : ProcessMonitor),
     ProcessMonitor_init cmd jobs w = (m0, Ok tt) ->
     job_loop jobs (set_status RUNNING m0) = (m1, Ok Continue) ->
     finish w m1 = (m2, Ok tt) ->
     completed m2 = List.length (args m2) /\
     List.length (args m2) = List.length jobs /\
     status m2 = (if Nat.eqb (failed m2) 0
                  then COMPLETED else COMPLETED_WITH_ERRORS) /\
     (exists s, last (calls m2) PingUser = UpdatePost (status m2) (StatsText s)) /\
     main cmd jobs w = (record_call PingUser m2, w_ping w)) /\
  (je_returncode (snd job_a) = 0%Z /\ je_returncode (snd job_b) = 1%Z /\
   let m := fst (main ["cmd"%string] [job_a; job_b] calm) in
   status m = COMPLETED_WITH_ERRORS /\ completed m = 2%nat /\ failed m = 1%nat).
Proof.
  split; [| vm_compute; repeat split].
  intros cmd jobs w m0 m1 m2 Hinit Hloop Hfin.
  assert (Hmain : main cmd jobs w = (record_call PingUser m2, w_ping w)).
  { rewrite main_eq, Hinit, run_jobs_eq, Hloop, Hfin. reflexivity. }
  rewrite ProcessMonitor_init_eq in Hinit.
  assert (Hm0 : args m0 = map fst jobs /\ completed m0 = 0%nat)
    by (inversion Hinit; subst; split; reflexivity).
  destruct Hm0 as [Ha0 Hc0].
  pose proof (job_loop_Continue _ _ _ Hloop) as [(Ha1 & _ & _) Hc1].
  simpl in Ha1, Hc1. rewrite Hc0 in Hc1. simpl in Hc1.
  assert (Hlen : List.length (args m1) = List.length jobs)
    by (rewrite Ha1, Ha0; apply length_map).
  rewrite finish_eq, report_eq in Hfin.
  set (mB := final_status (set_real_time (w_end w - start m1) m1)) in *.
  assert (HB : completed mB = completed m1 /\ failed mB = failed m1 /\
               args mB = args m1 /\
               status mB = (if Nat.eqb (failed m1) 0
                            then COMPLETED else COMPLETED_WITH_ERRORS)).
  { unfold mB, final_status. simpl. rewrite Hc1, Hlen, Nat.eqb_refl.
    destruct (Nat.eqb (failed m1) 0); simpl; repeat split; assumption. }
  destruct HB as (HBc & HBf & HBa & HBs).
  destruct (get_stats_str mB) as [s | e]; [| discriminate].
  inversion Hfin; subst m2. simpl.
  split; [rewrite HBc, HBa, Hlen; exact Hc1 |].
  split; [rewrite HBa; exact Hlen |].
  split; [rewrite HBf; exact HBs |].
  split; [exists s; rewrite last_last; reflexivity | exact Hmain].
Qed.

Lemma run_jobs_final_status_witness :
  exists m2 : ProcessMonitor,
    completed m2 = 2%nat /\ status m2 = COMPLETED_WITH_ERRORS /\
    main ["cmd"%string] [job_a; job_b] calm = (record_call PingUser m2, Ok tt).
Proof.
  pose (m0 := fst (ProcessMonitor_init ["cmd"%string] [job_a; job_b] calm)).
  pose (m1 := fst (job_loop [job_a; job_b] (set_status RUNNING m0))).
  pose (m2 := fst (finish calm m1)).
  destruct (proj1 run_jobs_final_status ["cmd"%string] [job_a; job_b] calm
              m0 m1 m2) as (Hc & Hl & Hs & _ & Hm).
  - reflexivity.
  - vm_compute. reflexivity.
  - vm_compute. reflexivity.
  - exists m2. split; [| split].
    + rewrite Hc. reflexivity.
    + rewrite Hs. reflexivity.
    + exact Hm.
Defined.

(** ** Interrupt *)

Lemma run_job_interrupted (arg : string) (je : job_env) (m : ProcessMonitor)
    (p : Process) :
  je_spawn je = Ok p ->
  poll_loop p (je_start je) (je_ticks je) [] = Raise KeyboardInterrupt ->
  run_job (arg, je) m =
    (set_status INTERRUPTED
       (record_call (Terminate p)
          (set_proc p (record_call (Popen (command m ++ [arg])) m))),
     Ok Break).
Proof.
  intros Hs Hp. rewrite (run_job_poll_raises arg je m p _ Hs Hp). reflexivity.
Qed.

(** An interrupt that arrives while the child is polled.  The jobs [before]
    have run to their end, the polling loop of the next job raises
    [KeyboardInterrupt], the clock has moved since the monitor was built and
    the final Slack call returns.  Then [proc.terminate()] is called on the
    child, no [Popen] follows, the last message carries [INTERRUPTED], which
    is also the status [main] ends with, and only the jobs [before] are
    counted.  For the job list [["a"]] interrupted while ["a"] is polled:
    [INTERRUPTED] and [completed = 0]. *)
Lemma interrupt_while_job_runs :
  (forall (cmd : list string) (before : list job) (arg : string)
          (je : job_env) (later : list job) (w : world)
          (m0 m1 : ProcessMonitor) (p : Process),
     ProcessMonitor_init cmd (before ++ (arg, je) :: later) w = (m0, Ok tt) ->
     job_loop before (set_status RUNNING m0) = (m1, Ok Continue) ->
     je_spawn je = Ok p ->
     poll_loop p (je_start je) (je_ticks je) [] = Raise KeyboardInterrupt ->
     ~ w_end w - w_start w == 0 ->
     w_final_report w = Ok tt ->
     exists (mf : ProcessMonitor) (s : stats_str),
       main cmd (before ++ (arg, je) :: later) w = (mf, w_ping w) /\
       status mf = INTERRUPTED /\
       completed mf = List.length before /\
       calls mf = calls m1 ++ [Popen (cmd ++ [arg]); Terminate p;
                               UpdatePost INTERRUPTED (StatsText s); PingUser]) /\
  (let m := fst (main ["cmd"%string] [job_interrupted] calm) in
   status m = INTERRUPTED /\ completed m = 0%nat /\
   exists s,
     calls m = [UpdatePost STARTED EmptyText; Popen ["cmd"%string; "a"%string];
                Terminate 11%nat; UpdatePost INTERRUPTED (StatsText s);
                PingUser]).
Proof.
  split; [| vm_compute; repeat split; eexists; reflexivity].
  intros cmd before arg je later w m0 m1 p Hinit Hloop Hs Hp Hclock Hsent.
  pose proof (job_loop_Continue _ _ _ Hloop) as [(Ha1 & Hcmd1 & Hst1) Hc1].
  assert (Hm0 : args m0 = map fst (before ++ (arg, je) :: later) /\
                completed m0 = 0%nat /\ command m0 = cmd /\
                start m0 = w_start w).
  { rewrite ProcessMonitor_init_eq in Hinit. inversion Hinit; subst.
    repeat split. }
  destruct Hm0 as (Ha0 & Hc0 & Hcmd0 & Hst0).
  simpl in Ha1, Hcmd1, Hst1, Hc1. rewrite Hc0 in Hc1. simpl in Hc1.
  set (mI := set_status INTERRUPTED
               (record_call (Terminate p)
                  (set_proc p (record_call (Popen (command m1 ++ [arg])) m1)))).
  assert (HloopI : job_loop (before ++ (arg, je) :: later)
                     (set_status RUNNING m0) = (mI, Ok Break)).
  { rewrite (job_loop_app _ _ _ _ Hloop), job_loop_cons.
    rewrite (run_job_interrupted arg je m1 p Hs Hp). reflexivity. }
  set (mT := set_real_time (w_end w - start mI) mI).
  assert (HmB : final_status mT = mT).
  { unfold final_status. simpl. rewrite Hc1, Ha1, Ha0, length_map, length_app.
    simpl. destruct (Nat.eqb_spec (List.length before)
                       (List.length before + S (List.length later))) as [E | _].
    - exfalso. lia.
    - reflexivity. }
  destruct (get_stats_str_defined mT) as [s Hstats].
  { simpl. rewrite Ha1, Ha0, map_app. simpl.
    intro E. apply app_eq_nil in E. destruct E as [_ E]. discriminate. }
  { simpl. rewrite Hst1, Hst0. exact Hclock. }
  exists (record_call PingUser
            (record_call (UpdatePost INTERRUPTED (StatsText s)) mT)), s.
  split.
  - rewrite main_eq, Hinit, run_jobs_eq, HloopI, finish_eq.
    fold mT. rewrite HmB, report_eq, Hstats, Hsent. reflexivity.
  - simpl. rewrite Hcmd1, Hcmd0, Hc1.
    repeat split. rewrite <- !app_assoc. reflexivity.
Qed.

(** An interrupt while the progress report of the last job is being sent. *)
Lemma run_job_report_interrupted (arg : string) (je : job_env) (m : ProcessMonitor)
    (p : Process) (d : dict) (s : stats_str) :
  je_spawn je = Ok p ->
  poll_loop p (je_start je) (je_ticks je) [] = Ok d ->
  fst (RateLimiter_call (je_gate_now je) (rate_limiter m)) = true ->
  get_stats_str (counted arg je p d m) = Ok s ->
  je_report je = Raise KeyboardInterrupt ->
  run_job (arg, je) m =
    (set_status INTERRUPTED
       (record_call (Terminate p)
          (record_call (UpdatePost (status m) (StatsText s))
             (counted arg je p d m))),
     Ok Break).
Proof.
  intros Hs Hp Hgate Hstats Hrep.
  rewrite (run_job_counted arg je m p d Hs Hp). cbv zeta.
  change (rate_limiter (account (je_returncode je) d (je_done je) m))
    with (rate_limiter m).
  rewrite Hgate, Hstats, Hrep. reflexivity.
Qed.

(** C2: the handler of line 115 does not do what the claim says for every
    interrupt that arrives during a job.  When [KeyboardInterrupt] arrives
    after the last job has been counted, while its progress report is being
    sent (line 114), the handler calls [proc.terminate()] on a child that
    has exited, sets [INTERRUPTED] and leaves the loop; but [completed] then
    equals the number of jobs, so lines 121-125 replace [INTERRUPTED]: the
    final message and the status [main] ends with are [COMPLETED] (or
    [COMPLETED_WITH_ERRORS]).  And when it arrives inside
    [subprocess.Popen] for the first job, [proc] is not bound: the handler
    raises [UnboundLocalError], [main] marks the run [CRASHED] and ends with
    [ZeroDivisionError]; nothing is terminated and nothing is reported. *)
Theorem interrupt_outside_the_polling_loop :
  (forall (cmd : list string) (before : list job) (arg : string)
          (je : job_env) (w : world) (m0 m1 : ProcessMonitor)
          (p : Process) (d : dict),
     ProcessMonitor_init cmd (before ++ [(arg, je)]) w = (m0, Ok tt) ->
     job_loop before (set_status RUNNING m0) = (m1, Ok Continue) ->
     je_spawn je = Ok p ->
     poll_loop p (je_start je) (je_ticks je) [] = Ok d ->
     fst (RateLimiter_call (je_gate_now je) (rate_limiter m1)) = true ->
     ~ je_done je - w_start w == 0 ->
     je_report je = Raise KeyboardInterrupt ->
     ~ w_end w - w_start w == 0 ->
     w_final_report w = Ok tt ->
     exists (mI mf : ProcessMonitor) (s : stats_str) (earlier : list event),
       job_loop (before ++ [(arg, je)]) (set_status RUNNING m0)
         = (mI, Ok Break) /\
       status mI = INTERRUPTED /\
       main cmd (before ++ [(arg, je)]) w = (mf, w_ping w) /\
       completed mf = List.length (before ++ [(arg, je)]) /\
       status mf = (if Nat.eqb (failed mf) 0
                    then COMPLETED else COMPLETED_WITH_ERRORS) /\
       status mf <> INTERRUPTED /\
       calls mf = earlier ++ [Terminate p; UpdatePost (status mf) (StatsText s);
                              PingUser]) /\
  (let (m, r) := main ["cmd"%string] [job_launch_interrupted] calm in
   r = Raise ZeroDivisionError /\ status m = CRASHED /\
   calls m = [UpdatePost STARTED EmptyText; Popen ["cmd"%string; "a"%string]]).
Proof.
  split; [| vm_compute; repeat split].
  intros cmd before arg je w m0 m1 p d Hinit Hloop Hs Hp Hgate Hdone Hrep
    Hclock Hsent.
  pose proof (job_loop_Continue _ _ _ Hloop) as [(Ha1 & Hcmd1 & Hst1) Hc1].
  assert (Hm0 : args m0 = map fst (before ++ [(arg, je)]) /\
                completed m0 = 0%nat /\ start m0 = w_start w).
  { rewrite ProcessMonitor_init_eq in Hinit. inversion Hinit; subst.
    repeat split. }
  destruct Hm0 as (Ha0 & Hc0 & Hst0).
  simpl in Ha1, Hcmd1, Hst1, Hc1. rewrite Hc0 in Hc1. simpl in Hc1.
  assert (Hargs : args m1 <> []).
  { rewrite Ha1, Ha0, map_app. simpl.
    intro E. apply app_eq_nil in E. destruct E as [_ E]. discriminate. }
  destruct (get_stats_str_defined (counted arg je p d m1)) as [s1 Hs1].
  { exact Hargs. }
  { simpl. rewrite Hst1, Hst0. exact Hdone. }
  set (mI := set_status INTERRUPTED
               (record_call (Terminate p)
                  (record_call (UpdatePost (status m1) (StatsText s1))
                     (counted arg je p d m1)))).
  assert (HloopI : job_loop (before ++ [(arg, je)]) (set_status RUNNING m0)
                   = (mI, Ok Break)).
  { rewrite (job_loop_app _ _ _ _ Hloop), job_loop_cons.
    rewrite (run_job_report_interrupted arg je m1 p d s1 Hs Hp Hgate Hs1 Hrep).
    reflexivity. }
  set (mT := set_real_time (w_end w - start mI) mI).
  assert (Hlen : completed mT = List.length (args mT)).
  { simpl. rewrite Hc1, Ha1, Ha0, length_map, length_app. reflexivity. }
  set (st := if Nat.eqb (failed mT) 0 then COMPLETED else COMPLETED_WITH_ERRORS).
  assert (HmB : final_status mT = set_status st mT).
  { unfold final_status. rewrite Hlen, Nat.eqb_refl. unfold st.
    destruct (Nat.eqb (failed mT) 0); reflexivity. }
  destruct (get_stats_str_defined (set_status st mT)) as [s Hstats].
  { exact Hargs. }
  { simpl. rewrite Hst1, Hst0. exact Hclock. }
  exists mI,
         (record_call PingUser
            (record_call (UpdatePost st (StatsText s)) (set_status st mT))),
         s,
         (calls m1 ++ [Popen (command m1 ++ [arg]);
                       UpdatePost (status m1) (StatsText s1)]).
  split; [exact HloopI |].
  split; [reflexivity |].
  split.
  - rewrite main_eq, Hinit, run_jobs_eq, HloopI, finish_eq.
    fold mT. rewrite HmB, report_eq, Hstats, Hsent. reflexivity.
  - split.
    { simpl. rewrite Hc1, length_app. reflexivity. }
    split; [reflexivity |].
    split; [simpl; unfold st; destruct (Nat.eqb (failed mT) 0); discriminate |].
    simpl. rewrite <- !app_assoc. reflexivity.
Qed.

Lemma interrupt_outside_the_polling_loop_witness :
  exists (mI mf : ProcessMonitor) (s : stats_str) (earlier : list event),
    job_loop ([] ++ [job_report_interrupted])
      (set_status RUNNING
         (fst (ProcessMonitor_init ["cmd"%string] [job_report_interrupted] calm)))
      = (mI, Ok Break) /\
    status mI = INTERRUPTED /\
    main ["cmd"%string] ([] ++ [job_report_interrupted]) calm = (mf, Ok tt) /\
    completed mf = 1%nat /\
    status mf = (if Nat.eqb (failed mf) 0
                 then COMPLETED else COMPLETED_WITH_ERRORS) /\
    status mf <> INTERRUPTED /\
    calls mf = earlier ++ [Terminate 11%nat; UpdatePost (status mf) (StatsText s);
                           PingUser].
Proof.
  apply (proj1 interrupt_outside_the_polling_loop ["cmd"%string] [] "a"%string
           (snd job_report_interrupted) calm
           (fst (ProcessMonitor_init ["cmd"%string] [job_report_interrupted] calm))
           (set_status RUNNING
              (fst (ProcessMonitor_init ["cmd"%string] [job_report_interrupted]
                      calm)))
           11%nat
           [(11%nat, mkTimes (1#10) (1#20))]).
  - reflexivity.
  - reflexivity.
  - reflexivity.
  - reflexivity.
  - reflexivity.
  - vm_compute. discriminate.
  - reflexivity.
  - vm_compute. discriminate.
  - reflexivity.
Defined.

(** ** Sampling *)

Lemma dict_get_set_same (k : Process) (v : pcputimes) (d : dict) :
  dict_get k (dict_set k v d) = Some v.
Proof.
  induction d as [| [k' v'] d IH]; simpl.
  - rewrite Nat.eqb_refl. reflexivity.
  - destruct (Nat.eqb k k') eqn:E; simpl; rewrite ?Nat.eqb_refl, ?E; auto.
Qed.

Lemma dict_get_set_other (k k0 : Process) (v : pcputimes) (d : dict) :
  k0 <> k -> dict_get k0 (dict_set k v d) = dict_get k0 d.
Proof.
  intro Hne. induction d as [| [k' v'] d IH]; simpl.
  - destruct (Nat.eqb_spec k0 k); [contradiction | reflexivity].
  - destruct (Nat.eqb_spec k k') as [-> | Hk]; simpl.
    + destruct (Nat.eqb_spec k0 k'); [contradiction | reflexivity].
    + destruct (Nat.eqb k0 k'); [reflexivity | exact IH].
Qed.

Lemma sample_tree_total (cpu_times : Process -> result pcputimes)
    (members : list Process) (proc_stats : dict) :
  (forall pc, In pc members -> alive cpu_times pc \/ exited cpu_times pc) ->
  exists proc_stats',
    sample_tree cpu_times members proc_stats = Ok proc_stats' /\
    (forall pc, exited cpu_times pc \/ ~ In pc members ->
                dict_get pc proc_stats' = dict_get pc proc_stats) /\
    (forall pc s, In pc members -> cpu_times pc = Ok s ->
                  dict_get pc proc_stats' = Some s).
Proof.
  revert proc_stats.
  induction members as [| pc0 rest IH]; intros proc_stats Hall.
  - exists proc_stats. simpl. split; [reflexivity |].
    split; [reflexivity | contradiction].
  - assert (Hrest : forall pc, In pc rest ->
                      alive cpu_times pc \/ exited cpu_times pc)
      by (intros pc Hin; apply Hall; right; exact Hin).
    simpl. destruct (Hall pc0 (or_introl eq_refl)) as [[s0 Hs0] | [e0 [He0 Hps]]].
    + rewrite Hs0.
      destruct (IH (dict_set pc0 s0 proc_stats) Hrest) as (d' & Hd' & Hold & Hnew).
      exists d'. split; [exact Hd' |]. split.
      * intros pc [Hex | Hnot].
        -- rewrite Hold by (left; exact Hex).
           apply dict_get_set_other. intros ->.
           destruct Hex as [e [He _]]. congruence.
        -- rewrite Hold by (right; intro Hin; apply Hnot; right; exact Hin).
           apply dict_get_set_other. intros ->. apply Hnot. left. reflexivity.
      * intros pc s [<- | Hin] Hs.
        -- destruct (in_dec Nat.eq_dec pc0 rest) as [Hin | Hnot].
           ++ apply Hnew; assumption.
           ++ rewrite Hold by (right; exact Hnot).
              rewrite dict_get_set_same. congruence.
        -- apply Hnew; assumption.
    + rewrite He0, Hps.
      destruct (IH proc_stats Hrest) as (d' & Hd' & Hold & Hnew).
      exists d'. split; [exact Hd' |]. split.
      * intros pc [Hex | Hnot].
        -- apply Hold. left. exact Hex.
        -- apply Hold. right. intro Hin. apply Hnot. right. exact Hin.
      * intros pc s [<- | Hin] Hs; [congruence | apply Hnew; assumption].
Qed.

(** C7: at one poll, when every member of the tree (the root [p] or a
    descendant) is either alive or has exited since it was listed, the pass
    over the tree does not raise: it leaves the entry of every exited member
    as it was (nothing is recorded for it), records the fresh sample of
    every live member, and, when the sleep returns, the polling loop goes on
    with that table. *)
Theorem poll_skips_exited_members (p : Process) (job_start : Q) (tk : tick)
    (later : list tick) (proc_stats : dict) :
  (forall pc, In pc (p :: tk_children tk) ->
              alive (tk_cpu_times tk) pc \/ exited (tk_cpu_times tk) pc) ->
  exists proc_stats',
    sample_tree (tk_cpu_times tk) (p :: tk_children tk) proc_stats
      = Ok proc_stats' /\
    (forall pc, exited (tk_cpu_times tk) pc ->
                dict_get pc proc_stats' = dict_get pc proc_stats) /\
    (forall pc s, In pc (p :: tk_children tk) -> tk_cpu_times tk pc = Ok s ->
                  dict_get pc proc_stats' = Some s) /\
    (sleep_log10 (tk_now tk - job_start + 1) (tk_sleep tk) = Ok tt ->
     poll_loop p job_start (tk :: later) proc_stats
       = poll_loop p job_start later proc_stats').
Proof.
  intro Hall.
  destruct (sample_tree_total (tk_cpu_times tk) (p :: tk_children tk)
              proc_stats Hall) as (d' & Hd' & Hold & Hnew).
  exists d'. split; [exact Hd' |].
  split; [intros pc Hex; apply Hold; left; exact Hex |].
  split; [exact Hnew |].
  intro Hsleep. change (poll_loop p job_start (tk :: later) proc_stats) with
    (match sample_tree (tk_cpu_times tk) (p :: tk_children tk) proc_stats with
     | Ok proc_stats' =>
         match sleep_log10 (tk_now tk - job_start + 1) (tk_sleep tk) with
         | Ok _ => poll_loop p job_start later proc_stats'
         | Raise e => Raise e
         end
     | Raise e => Raise e
     end).
  rewrite Hd', Hsleep. reflexivity.
Qed.

Lemma poll_skips_exited_members_witness :
  exists proc_stats',
    sample_tree (tk_cpu_times tick_child_gone) (11%nat :: [12%nat; 13%nat])
      [(12%nat, mkTimes (3#100) (1#100))] = Ok proc_stats' /\
    dict_get 12%nat proc_stats' = Some (mkTimes (3#100) (1#100)) /\
    dict_get 11%nat proc_stats' = Some (mkTimes (1#10) (1#20)) /\
    dict_get 13%nat proc_stats' = Some (mkTimes (1#10) (1#20)).
Proof.
  destruct (poll_skips_exited_members 11%nat 1001 tick_child_gone []
              [(12%nat, mkTimes (3#100) (1#100))])
    as (d' & Hd' & Hold & Hnew & _).
  - intros pc [<- | [<- | [<- | []]]].
    + left. eexists. reflexivity.
    + right. exists NoSuchProcess. split; reflexivity.
    + left. eexists. reflexivity.
  - exists d'. split; [exact Hd' |]. split; [| split].
    + rewrite (Hold 12%nat); [reflexivity |].
      exists NoSuchProcess. split; reflexivity.
    + apply Hnew; [left; reflexivity | reflexivity].
    + apply Hnew; [right; right; left; reflexivity | reflexivity].
Defined.

(** ** The length of the sleep *)

Lemma sleep_log10_steady (job_start now : Q) :
  job_start <= now -> sleep_log10 (now - job_start + 1) (Ok tt) = Ok tt.
Proof.
  intro H. unfold sleep_log10.
  assert (H1 : 1 <= now - job_start + 1).
  { rewrite <- (Qplus_0_l 1) at 1. apply Qplus_le_compat; [| apply Qle_refl].
    unfold Qminus. rewrite <- (Qplus_opp_r job_start).
    apply Qplus_le_compat; [exact H | apply Qle_refl]. }
  destruct (Qlt_le_dec 0 (now - job_start + 1)) as [_ | Hle].
  - destruct (Qlt_le_dec (now - job_start + 1) 1) as [Hlt | _]; [| reflexivity].
    exfalso. exact (Qlt_not_le _ _ Hlt H1).
  - exfalso. apply (Qlt_not_le 0 1); [reflexivity |].
    exact (Qle_trans _ _ _ H1 Hle).
Qed.

Lemma sleep_log10_clock_back (job_start now : Q) (wake : result unit) :
  now < job_start -> sleep_log10 (now - job_start + 1) wake = Raise ValueError.
Proof.
  intro H. unfold sleep_log10.
  assert (H1 : now - job_start + 1 < 1).
  { rewrite <- (Qplus_0_l 1) at 2. apply Qplus_lt_le_compat; [| apply Qle_refl].
    unfold Qminus. rewrite <- (Qplus_opp_r job_start).
    apply Qplus_lt_le_compat; [exact H | apply Qle_refl]. }
  destruct (Qlt_le_dec 0 (now - job_start + 1)); [| reflexivity].
  destruct (Qlt_le_dec (now - job_start + 1) 1) as [_ | Hge]; [reflexivity |].
  exfalso. exact (Qlt_not_le _ _ H1 Hge).
Qed.

Section SleepLength.

Import Sleep.
Local Open Scope R_scope.

Lemma ln_10_pos : 0 < ln 10.
Proof. rewrite <- ln_1. apply ln_increasing; lra. Qed.

Lemma log10_1 : log10 1 = 0.
Proof. unfold log10. rewrite ln_1. unfold Rdiv. apply Rmult_0_l. Qed.

Lemma log10_lt (x y : R) : 0 < x -> x < y -> log10 x < log10 y.
Proof.
  intros Hx Hxy. unfold log10, Rdiv.
  apply Rmult_lt_compat_r.
  - apply Rinv_0_lt_compat, ln_10_pos.
  - apply ln_increasing; assumption.
Qed.

Lemma log10_le (x y : R) : 0 < x -> x <= y -> log10 x <= log10 y.
Proof.
  intros Hx [Hlt | ->].
  - left. apply log10_lt; assumption.
  - right. reflexivity.
Qed.

(** The executable [sleep_log10] raises exactly when line 103 does. *)
Lemma sleep_log10_refines (x : Q) (wake : result unit) :
  sleep_log10 x wake =
    match math_log10 (Q2R x) with
    | Ok secs => time_sleep secs wake
    | Raise e => Raise e
    end.
Proof.
  unfold sleep_log10, math_log10, time_sleep.
  destruct (Qlt_le_dec 0 x) as [Hpos | Hneg].
  - apply Qlt_Rlt in Hpos. rewrite RMicromega.Q2R_0 in Hpos.
    destruct (Rlt_dec 0 (Q2R x)) as [_ | Hn]; [| contradiction].
    destruct (Qlt_le_dec x 1) as [Hlt | Hge].
    + apply Qlt_Rlt in Hlt. rewrite RMicromega.Q2R_1 in Hlt.
      pose proof (log10_lt _ _ Hpos Hlt) as H. rewrite log10_1 in H.
      destruct (Rlt_dec (log10 (Q2R x)) 0); [reflexivity | contradiction].
    + apply Qle_Rle in Hge. rewrite RMicromega.Q2R_1 in Hge.
      assert (H : log10 1 <= log10 (Q2R x)) by (apply log10_le; lra).
      rewrite log10_1 in H.
      destruct (Rlt_dec (log10 (Q2R x)) 0); [lra | reflexivity].
  - apply Qle_Rle in Hneg. rewrite RMicromega.Q2R_0 in Hneg.
    destruct (Rlt_dec 0 (Q2R x)); [lra | reflexivity].
Qed.

(** For an elapsed time that is not negative, the length of the sleep is
    [log10 (elapsed + 1)], which is [max 0 (log10 (elapsed + 1))]; it is not
    negative, so [time.sleep] accepts it, and it does not decrease when the
    elapsed time grows. *)
Lemma sleep_interval_spec :
  (forall elapsed : R,
     0 <= elapsed ->
     sleep_interval elapsed = Ok (Rmax 0 (log10 (elapsed + 1))) /\
     0 <= log10 (elapsed + 1) /\
     (forall wake, time_sleep (log10 (elapsed + 1)) wake = wake)) /\
  (forall e1 e2 : R,
     0 <= e1 -> e1 <= e2 -> log10 (e1 + 1) <= log10 (e2 + 1)).
Proof.
  split.
  - intros elapsed He.
    assert (H0 : 0 <= log10 (elapsed + 1)).
    { rewrite <- log10_1. apply log10_le; lra. }
    split; [| split].
    + unfold sleep_interval, math_log10.
      destruct (Rlt_dec 0 (elapsed + 1)); [| lra].
      rewrite Rmax_right by exact H0. reflexivity.
    + exact H0.
    + intro wake. unfold time_sleep.
      destruct (Rlt_dec (log10 (elapsed + 1)) 0); [lra | reflexivity].
  - intros e1 e2 H1 H12. apply log10_le; lra.
Qed.

(** Line 103 at a poll: the executable model and the length in seconds. *)
Lemma sleep_log10_interval (job_start now : Q) (wake : result unit) :
  sleep_log10 (now - job_start + 1)%Q wake =
    match sleep_interval (Q2R (now - job_start)) with
    | Ok secs => time_sleep secs wake
    | Raise e => Raise e
    end.
Proof.
  rewrite sleep_log10_refines. unfold sleep_interval.
  rewrite Q2R_plus, RMicromega.Q2R_1. reflexivity.
Qed.

(** C6: line 103 sleeps [log10 (elapsed + 1)] seconds, with no [max(0, ...)],
    where [elapsed] is [time.time() - job_start] at the poll.  While the
    clock is not behind the start of the job this is the length the claim
    gives, and the sleep goes through.  But [time.time()] can go back: at a
    poll where it reads less than [job_start] the elapsed time is negative,
    the length computed is negative and not 0 (or [math.log10] is out of its
    domain, when the clock is a second or more behind), and line 103 raises
    [ValueError], which ends the polling.  With a second job whose first
    poll finds the clock half a second behind, [main] reports the run
    [CRASHED] after one job, and the child of the second job is never
    terminated. *)
Theorem sleep_raises_when_the_clock_steps_back :
  (forall (job_start now : Q) (wake : result unit),
     sleep_log10 (now - job_start + 1)%Q wake =
       match sleep_interval (Q2R (now - job_start)) with
       | Ok secs => time_sleep secs wake
       | Raise e => Raise e
       end) /\
  (forall (job_start now : Q) (wake : result unit),
     (job_start <= now)%Q ->
     let elapsed := Q2R (now - job_start) in
     sleep_interval elapsed = Ok (Rmax 0 (log10 (elapsed + 1))) /\
     sleep_log10 (now - job_start + 1)%Q wake = wake) /\
  (forall (p : Process) (job_start : Q) (tk : tick) (later : list tick)
          (d d1 : dict),
     sample_tree (tk_cpu_times tk) (p :: tk_children tk) d = Ok d1 ->
     (tk_now tk < job_start)%Q ->
     let elapsed := Q2R (tk_now tk - job_start) in
     elapsed < 0 /\
     poll_loop p job_start (tk :: later) d = Raise ValueError /\
     match sleep_interval elapsed with
     | Ok secs => secs < 0 /\ secs <> Rmax 0 secs /\
                  time_sleep secs (tk_sleep tk) = Raise ValueError
     | Raise e => e = ValueError /\ elapsed <= -1
     end) /\
  (let (m, r) := main ["cmd"%string] [job_a; job_clock_back] calm in
   r = Ok tt /\ status m = CRASHED /\ completed m = 1%nat /\
   exists s s',
     calls m = [UpdatePost STARTED EmptyText;
                Popen ["cmd"%string; "a"%string];
                UpdatePost RUNNING (StatsText s);
                Popen ["cmd"%string; "b"%string];
                UpdatePost CRASHED (StatsText s'); PingUser]).
Proof.
  split; [exact sleep_log10_interval |].
  split; [| split; [| vm_compute; repeat split; do 2 eexists; reflexivity]].
  - intros job_start now wake Hle. cbv zeta.
    assert (Hpos : 0 <= Q2R (now - job_start)).
    { apply Qle_Rle in Hle. rewrite Q2R_minus. lra. }
    destruct (proj1 sleep_interval_spec _ Hpos) as (Hlen & _ & Hsleep).
    split; [exact Hlen |].
    rewrite sleep_log10_interval. unfold sleep_interval, math_log10.
    destruct (Rlt_dec 0 (Q2R (now - job_start) + 1)); [| lra].
    apply Hsleep.
  - intros p job_start tk later d d1 Hsample Hback. cbv zeta.
    assert (Hneg : Q2R (tk_now tk - job_start) < 0).
    { apply Qlt_Rlt in Hback. rewrite Q2R_minus. lra. }
    split; [exact Hneg |].
    split.
    + cbn [poll_loop]. rewrite Hsample.
      rewrite (sleep_log10_clock_back _ _ _ Hback). reflexivity.
    + unfold sleep_interval, math_log10.
      destruct (Rlt_dec 0 (Q2R (tk_now tk - job_start) + 1)) as [Hpos | Hnp].
      * assert (Hlog : log10 (Q2R (tk_now tk - job_start) + 1) < 0).
        { rewrite <- log10_1. apply log10_lt; lra. }
        split; [exact Hlog |].
        split.
        -- rewrite Rmax_left by lra. lra.
        -- unfold time_sleep.
           destruct (Rlt_dec (log10 (Q2R (tk_now tk - job_start) + 1)) 0);
             [reflexivity | contradiction].
      * split; [reflexivity | lra].
Qed.

Lemma sleep_raises_when_the_clock_steps_back_witness :
  Q2R (tk_now tick_clock_back - 1002) < 0 /\
  poll_loop 11%nat 1002 (tick_clock_back :: [tick_all_alive]) []
    = Raise ValueError.
Proof.
  destruct sleep_raises_when_the_clock_steps_back as (_ & _ & Hback & _).
  destruct (Hback 11%nat 1002%Q tick_clock_back [tick_all_alive] []
              [(11%nat, mkTimes (1#20) (1#50))])
    as (Hneg & Hraise & _).
  - reflexivity.
  - reflexivity.
  - split; [exact Hneg | exact Hraise].
Defined.

End SleepLength.

(** ** Invariants of the accumulator *)

Ltac same_counts_by_fields :=
  unfold same_counts, same_frame, same_totals; simpl; repeat split.

Lemma same_counts_refl (m : ProcessMonitor) : same_counts m m.
Proof. same_counts_by_fields. Qed.

Lemma same_counts_trans (m1 m2 m3 : ProcessMonitor) :
  same_counts m1 m2 -> same_counts m2 m3 -> same_counts m1 m3.
Proof.
  unfold same_counts, same_frame, same_totals. intuition congruence.
Qed.

Lemma report_same_counts (sent : result unit) (m : ProcessMonitor) :
  same_counts m (fst (report sent m)).
Proof.
  rewrite report_eq. destruct (get_stats_str m); same_counts_by_fields.
Qed.

Lemma final_status_same_counts (m : ProcessMonitor) :
  same_counts m (final_status m).
Proof.
  unfold final_status.
  destruct (Nat.eqb (completed m) (List.length (args m)));
    [destruct (Nat.eqb (failed m) 0) |]; same_counts_by_fields.
Qed.

Lemma finish_same_counts (w : world) (m : ProcessMonitor) :
  same_counts m (fst (finish w m)).
Proof.
  rewrite finish_eq.
  eapply same_counts_trans; [| apply report_same_counts].
  eapply same_counts_trans; [| apply final_status_same_counts].
  same_counts_by_fields.
Qed.

Lemma main_same_counts (cmd : list string) (jobs : list job) (w : world)
    (m0 : ProcessMonitor) (u : unit) :
  ProcessMonitor_init cmd jobs w = (m0, Ok u) ->
  same_counts (fst (job_loop jobs (set_status RUNNING m0)))
              (fst (main cmd jobs w)).
Proof.
  intro Hinit. rewrite main_eq, Hinit, run_jobs_eq.
  destruct (job_loop jobs (set_status RUNNING m0)) as [m1 [c | e]]; simpl.
  - pose proof (finish_same_counts w m1) as H1.
    destruct (finish w m1) as [m2 [u2 | e2]]; simpl in *;
      [revert H1; same_counts_by_fields; tauto |].
    pose proof (report_same_counts (w_crash_report w) (set_status CRASHED m2))
      as H2.
    destruct (report (w_crash_report w) (set_status CRASHED m2))
      as [m3 [u3 | e3]]; simpl in *;
      pose proof (same_counts_trans _ _ _ H1 H2) as H3; revert H3;
      same_counts_by_fields; tauto.
  - pose proof (report_same_counts (w_crash_report w) (set_status CRASHED m1))
      as H2.
    destruct (report (w_crash_report w) (set_status CRASHED m1))
      as [m3 [u3 | e3]]; simpl in *; revert H2;
      same_counts_by_fields; tauto.
Qed.

(** The counters after any number of iterations. *)
Lemma job_loop_states_counts (jobs : list job) (m : ProcessMonitor) (n : nat) :
  (completed m + List.length jobs <= n)%nat ->
  (failed m <= completed m)%nat ->
  Forall (fun s => args s = args m /\ (completed s <= n)%nat /\
                   (failed s <= completed s)%nat)
         (job_loop_states jobs m).
Proof.
  revert m. induction jobs as [| j later IH]; intros m Hn Hf; simpl.
  - constructor.
  - simpl in Hn. destruct (run_job j m) as [m' r] eqn:Hj.
    apply run_job_effect in Hj.
    destruct Hj as [(Ha & _ & _) Hcases].
    assert (Hm' : (completed m' + List.length later <= n)%nat /\
                  (failed m' <= completed m')%nat).
    { destruct Hcases as [[(Hc & Hfl & _) _] | (p & d & _ & _ & Hc & Hfl & _)].
      - lia.
      - destruct (Z.eqb (je_returncode (snd j)) 0); lia. }
    destruct Hm' as [Hn' Hf'].
    assert (Hhead : args m' = args m /\ (completed m' <= n)%nat /\
                    (failed m' <= completed m')%nat)
      by (repeat split; [exact Ha | lia | exact Hf']).
    destruct r as [[|] | e]; constructor; try exact Hhead; try constructor.
    eapply Forall_impl; [| apply (IH m' Hn' Hf')].
    simpl. intros s (Hs & Hcs & Hfs). rewrite Hs, Ha. repeat split; assumption.
Qed.

(** *** Sums of cpu times *)

Lemma fold_left_Qplus_acc (l : list Q) (a : Q) :
  fold_left Qplus l a == a + sum l.
Proof.
  unfold sum. revert a. induction l as [| x l IH]; intro a; simpl.
  - ring.
  - rewrite (IH (a + x)), (IH (0 + x)). ring.
Qed.

Lemma sum_cons (x : Q) (l : list Q) : sum (x :: l) == x + sum l.
Proof.
  unfold sum at 1. simpl. rewrite fold_left_Qplus_acc. ring.
Qed.

Lemma sum_nonneg (l : list Q) : Forall (fun x => 0 <= x) l -> 0 <= sum l.
Proof.
  induction 1 as [| x l Hx _ IH].
  - unfold sum. simpl. apply Qle_refl.
  - rewrite sum_cons. apply Qle_trans with (0 + 0).
    + rewrite Qplus_0_l. apply Qle_refl.
    + apply Qplus_le_compat; assumption.
Qed.

Lemma dict_set_nonneg (k : Process) (v : pcputimes) (d : dict) :
  nonneg_times v -> nonneg_dict d -> nonneg_dict (dict_set k v d).
Proof.
  intros Hv Hd. induction Hd as [| [k' v'] d Hkv Hd IH]; simpl.
  - constructor; [exact Hv | constructor].
  - destruct (Nat.eqb k k'); constructor; assumption.
Qed.

Lemma sample_tree_nonneg (cpu_times : Process -> result pcputimes)
    (members : list Process) (d d' : dict) :
  (forall pc s, cpu_times pc = Ok s -> nonneg_times s) ->
  nonneg_dict d -> sample_tree cpu_times members d = Ok d' -> nonneg_dict d'.
Proof.
  intro Hs. revert d. induction members as [| pc rest IH]; intros d Hd; simpl.
  - intro H. inversion H; subst. exact Hd.
  - destruct (cpu_times pc) as [s | e] eqn:E.
    + apply IH. apply dict_set_nonneg; [exact (Hs pc s E) | exact Hd].
    + destruct (is_psutil_Error e); [apply IH; exact Hd | discriminate].
Qed.

Lemma poll_loop_nonneg (p : Process) (job_start : Q) (ticks : list tick)
    (d d' : dict) :
  Forall nonneg_tick ticks -> nonneg_dict d ->
  poll_loop p job_start ticks d = Ok d' -> nonneg_dict d'.
Proof.
  intro Hticks. revert d. induction Hticks as [| tk later Htk _ IH];
    intros d Hd; cbn [poll_loop].
  - intro H. inversion H; subst. exact Hd.
  - destruct (sample_tree (tk_cpu_times tk) (p :: tk_children tk) d)
      as [d1 | e] eqn:E; [| discriminate].
    destruct (sleep_log10 _ _); [| discriminate].
    apply IH. exact (sample_tree_nonneg _ _ _ _ Htk Hd E).
Qed.

Lemma job_times_nonneg (d : dict) :
  nonneg_dict d -> 0 <= job_user d /\ 0 <= job_system d.
Proof.
  intro Hd. unfold job_user, job_system, values. split; apply sum_nonneg.
  - induction Hd as [| kv d [Hu _] _ IH]; simpl; constructor; assumption.
  - induction Hd as [| kv d [_ Hsy] _ IH]; simpl; constructor; assumption.
Qed.

(** *** The totals only grow *)

Lemma times_le_refl (m : ProcessMonitor) : times_le m m.
Proof. split; apply Qle_refl. Qed.

Lemma times_le_trans (m1 m2 m3 : ProcessMonitor) :
  times_le m1 m2 -> times_le m2 m3 -> times_le m1 m3.
Proof.
  intros [Hu Hs] [Hu' Hs']. split; eapply Qle_trans; eassumption.
Qed.

Lemma same_counts_times_le (m m' : ProcessMonitor) :
  same_counts m m' -> times_le m m'.
Proof.
  intros [_ (_ & _ & Hu & Hs)]. unfold times_le. rewrite Hu, Hs.
  split; apply Qle_refl.
Qed.

Lemma run_job_times_le (j : job) (m m' : ProcessMonitor) (r : result loop_ctl) :
  nonneg_job j -> run_job j m = (m', r) -> times_le m m'.
Proof.
  intros Hj H. apply run_job_effect in H.
  destruct H as [_ [[(_ & _ & Hu & Hs) _] | (p & d & _ & Hp & _ & _ & Hu & Hs)]];
    unfold times_le; rewrite Hu, Hs.
  - split; apply Qle_refl.
  - apply poll_loop_nonneg in Hp; [| exact Hj | constructor].
    destruct (job_times_nonneg d Hp) as [H1 H2].
    split.
    + rewrite <- (Qplus_0_r (user_time m)) at 1.
      apply Qplus_le_compat; [apply Qle_refl | exact H1].
    + rewrite <- (Qplus_0_r (system_time m)) at 1.
      apply Qplus_le_compat; [apply Qle_refl | exact H2].
Qed.

Lemma job_loop_states_sorted (jobs : list job) (m mf : ProcessMonitor) :
  Forall nonneg_job jobs ->
  times_le (fst (job_loop jobs m)) mf ->
  StronglySorted times_le (m :: job_loop_states jobs m ++ [mf]).
Proof.
  intro Hjobs. revert m. induction Hjobs as [| j later Hj _ IH]; intros m Hlast.
  - simpl in *. constructor; [| constructor; [exact Hlast | constructor]].
    constructor; constructor.
  - rewrite job_loop_cons in Hlast. simpl job_loop_states.
    destruct (run_job j m) as [m' r] eqn:E.
    pose proof (run_job_times_le j m m' r Hj E) as Hstep.
    assert (Hrest : exists l, StronglySorted times_le (m' :: l ++ [mf]) /\
              (match r with
               | Ok Continue => m' :: job_loop_states later m'
               | _ => [m']
               end) ++ [mf] = m' :: l ++ [mf]).
    { destruct r as [[|] | e].
      - exists (job_loop_states later m'). split; [apply IH; exact Hlast |].
        reflexivity.
      - exists []. simpl in *. split; [| reflexivity].
        constructor; [| constructor; [exact Hlast | constructor]].
        constructor; constructor.
      - exists []. simpl in *. split; [| reflexivity].
        constructor; [| constructor; [exact Hlast | constructor]].
        constructor; constructor. }
    destruct Hrest as (l & Hsorted & Heq).
    replace (match r with
             | Ok Continue => m' :: job_loop_states later m'
             | Ok Break => [m']
             | Raise _ => [m']
             end ++ [mf]) with (m' :: l ++ [mf])
      by (symmetry; destruct r as [[|] | e]; exact Heq).
    constructor; [exact Hsorted |].
    constructor; [exact Hstep |].
    apply StronglySorted_inv in Hsorted. destruct Hsorted as [_ Hall].
    eapply Forall_impl; [| exact Hall].
    intros s Hs. exact (times_le_trans _ _ _ Hstep Hs).
Qed.

(** C4: at every point of a run (the monitor once built, on entering the
    loop, after each iteration, at the end of [main]) [completed] is at most
    the number of jobs and [failed] at most [completed]; when cpu times are
    not negative, [user_time] and [system_time] never decrease from one
    point to any later one; and an iteration either leaves both counters
    alone (the job did not reach its end) or adds exactly 1 to [completed]
    and adds 1 to [failed] exactly when the exit code is not 0, which is
    what every iteration that ends normally does. *)
Theorem accumulator_invariants :
  (forall (cmd : list string) (jobs : list job) (w : world) (m : ProcessMonitor),
     In m (run_states cmd jobs w) ->
     List.length (args m) = List.length jobs /\
     (completed m <= List.length (args m))%nat /\
     (failed m <= completed m)%nat) /\
  (forall (cmd : list string) (jobs : list job) (w : world),
     Forall nonneg_job jobs ->
     StronglySorted times_le (run_states cmd jobs w)) /\
  (forall (j : job) (m m' : ProcessMonitor) (r : result loop_ctl),
     run_job j m = (m', r) ->
     (completed m' = completed m /\ failed m' = failed m /\ r <> Ok Continue) \/
     (completed m' = (completed m + 1)%nat /\
      failed m' = (failed m +
                   (if Z.eqb (je_returncode (snd j)) 0 then 0 else 1))%nat)) /\
  (forall (j : job) (m m' : ProcessMonitor),
     run_job j m = (m', Ok Continue) ->
     completed m' = (completed m + 1)%nat /\
     failed m' = (failed m +
                  (if Z.eqb (je_returncode (snd j)) 0 then 0 else 1))%nat).
Proof.
  split; [| split; [| split]].
  - intros cmd jobs w m Hin. unfold run_states in Hin.
    rewrite ProcessMonitor_init_eq in Hin.
    set (m0 := mkMonitor cmd (map fst jobs) STARTED (RateLimiter_init 4)
                 (w_start w) 0 0 0 0 0 None [UpdatePost STARTED EmptyText]) in *.
    assert (Hargs : List.length (args m0) = List.length jobs)
      by (simpl; apply length_map).
    assert (Hstates :
              Forall (fun s => args s = args (set_status RUNNING m0) /\
                               (completed s <= List.length jobs)%nat /\
                               (failed s <= completed s)%nat)
                     (job_loop_states jobs (set_status RUNNING m0)))
      by (apply job_loop_states_counts; simpl; lia).
    rewrite Forall_forall in Hstates.
    assert (Hgood : forall s,
              args s = args m0 -> (completed s <= List.length jobs)%nat ->
              (failed s <= completed s)%nat ->
              List.length (args s) = List.length jobs /\
              (completed s <= List.length (args s))%nat /\
              (failed s <= completed s)%nat)
      by (intros s Ha Hc Hf; rewrite Ha, Hargs; repeat split; assumption).
    assert (Hlast : forall s, s = fst (job_loop jobs (set_status RUNNING m0)) ->
              args s = args m0 /\ (completed s <= List.length jobs)%nat /\
              (failed s <= completed s)%nat).
    { intros s ->. rewrite job_loop_states_last.
      destruct (job_loop_states jobs (set_status RUNNING m0)) as [| s0 l] eqn:E.
      - simpl. repeat split; lia.
      - apply Hstates. rewrite <- E.
        destruct (exists_last (l := job_loop_states jobs (set_status RUNNING m0)))
          as (l' & a & Hl'); [rewrite E; discriminate |].
        rewrite Hl', last_last. apply in_or_app. right. left. reflexivity. }
    destruct (w_init_report w) as [u | e] eqn:Hinit.
    + destruct Hin as [<- | [<- | Hin]].
      * apply Hgood; simpl; [reflexivity | lia | lia].
      * apply Hgood; simpl; [reflexivity | lia | lia].
      * apply in_app_or in Hin. destruct Hin as [Hin | [<- | []]].
        -- destruct (Hstates m Hin) as (Ha & Hc & Hf). apply Hgood; assumption.
        -- assert (Hi : ProcessMonitor_init cmd jobs w = (m0, Ok u))
             by (rewrite ProcessMonitor_init_eq, Hinit; reflexivity).
           pose proof (main_same_counts cmd jobs w m0 u Hi)
             as [(Ha & _ & _) (Hc & Hf & _)].
           destruct (Hlast _ eq_refl) as (Ha' & Hc' & Hf').
           apply Hgood; [rewrite Ha; exact Ha' | rewrite Hc; exact Hc' |
                         rewrite Hc, Hf; exact Hf'].
    + destruct Hin as [<- | []]. apply Hgood; simpl; [reflexivity | lia | lia].
  - intros cmd jobs w Hjobs. unfold run_states.
    destruct (ProcessMonitor_init cmd jobs w) as [m0 [u | e]] eqn:Hinit.
    + pose proof (main_same_counts cmd jobs w m0 u Hinit) as Hsame.
      apply same_counts_times_le in Hsame.
      pose proof (job_loop_states_sorted jobs (set_status RUNNING m0)
                    (fst (main cmd jobs w)) Hjobs Hsame) as Hsorted.
      constructor; [exact Hsorted |].
      assert (H0 : times_le m0 (set_status RUNNING m0))
        by (split; simpl; apply Qle_refl).
      constructor; [exact H0 |].
      apply StronglySorted_inv in Hsorted. destruct Hsorted as [_ Hall].
      eapply Forall_impl; [| exact Hall].
      intros s Hs. exact (times_le_trans _ _ _ H0 Hs).
    + constructor; constructor.
  - intros j m m' r H. apply run_job_effect in H.
    destruct H as [_ [[(Hc & Hf & _) Hr] | (p & d & _ & _ & Hc & Hf & _)]].
    + left. repeat split; assumption.
    + right. split; assumption.
  - intros j m m' H. apply run_job_Continue in H.
    destruct H as [_ (p & d & _ & _ & Hc & Hf & _)]. split; assumption.
Qed.

Lemma job_a_nonneg : nonneg_job job_a.
Proof.
  constructor; [| constructor].
  intros pc s H. inversion H; subst. split; vm_compute; discriminate.
Qed.

Lemma job_b_nonneg : nonneg_job job_b.
Proof.
  constructor; [| constructor].
  intros pc s H. inversion H; subst. split; vm_compute; discriminate.
Qed.

Lemma accumulator_invariants_witness :
  (let m := fst (main ["cmd"%string] [job_a; job_b] calm) in
   List.length (args m) = 2%nat /\
   (completed m <= List.length (args m))%nat /\
   (failed m <= completed m)%nat) /\
  StronglySorted times_le (run_states ["cmd"%string] [job_a; job_b] calm) /\
  (let m := set_status RUNNING
              (fst (ProcessMonitor_init ["cmd"%string] [job_a; job_b] calm)) in
   completed (fst (run_job job_a m)) = 1%nat /\
   failed (fst (run_job job_a m)) = 0%nat).
Proof.
  destruct accumulator_invariants as (Hcount & Hsorted & _ & Hstep).
  split; [| split].
  - apply (Hcount ["cmd"%string] [job_a; job_b] calm).
    vm_compute. do 4 right. left. reflexivity.
  - apply Hsorted. constructor; [exact job_a_nonneg |].
    constructor; [exact job_b_nonneg | constructor].
  - exact (Hstep job_a
             (set_status RUNNING
                (fst (ProcessMonitor_init ["cmd"%string] [job_a; job_b] calm)))
             (fst (run_job job_a
                (set_status RUNNING
                   (fst (ProcessMonitor_init ["cmd"%string] [job_a; job_b] calm)))))
             eq_refl).
Defined.

(** ** Order of the jobs *)

Lemma sum_Permutation (l l' : list Q) : Permutation l l' -> sum l == sum l'.
Proof.
  induction 1 as [| x l l' _ IH | x y l | l1 l2 l3 _ IH1 _ IH2].
  - reflexivity.
  - rewrite !sum_cons, IH. reflexivity.
  - rewrite !sum_cons. ring.
  - rewrite IH1. exact IH2.
Qed.

Lemma job_loop_totals (jobs : list job) (m m' : ProcessMonitor) :
  job_loop jobs m = (m', Ok Continue) ->
  user_time m' == user_time m + sum (map (fun j => job_user (job_table j)) jobs) /\
  system_time m' ==
    system_time m + sum (map (fun j => job_system (job_table j)) jobs).
Proof.
  revert m. induction jobs as [| j later IH]; intros m H.
  - simpl in H. unfold ret in H. inversion H; subst. unfold sum. simpl.
    split; ring.
  - rewrite job_loop_cons in H.
    destruct (run_job j m) as [m1 [[|] | e]] eqn:Hj; try discriminate.
    apply run_job_Continue in Hj.
    destruct Hj as [_ (p & d & Hs & Hp & _ & _ & Hu & Hsy)].
    apply IH in H. destruct H as [Hu' Hsy'].
    assert (Ht : job_table j = d) by (unfold job_table; rewrite Hs, Hp; reflexivity).
    simpl map. rewrite !sum_cons, Ht, Hu', Hsy', Hu, Hsy. split; ring.
Qed.

(** C9, in exact arithmetic: two runs over the same jobs in different
    orders, each running every job to its end, finish with the same
    [user_time] and the same [system_time]. *)
Theorem totals_do_not_depend_on_order_exact (jobs jobs' : list job)
    (m m1 m2 : ProcessMonitor) :
  Permutation jobs jobs' ->
  job_loop jobs m = (m1, Ok Continue) ->
  job_loop jobs' m = (m2, Ok Continue) ->
  user_time m1 == user_time m2 /\ system_time m1 == system_time m2.
Proof.
  intros Hperm H1 H2.
  apply job_loop_totals in H1. apply job_loop_totals in H2.
  destruct H1 as [Hu1 Hs1]. destruct H2 as [Hu2 Hs2].
  rewrite Hu1, Hu2, Hs1, Hs2. split.
  - rewrite (sum_Permutation _ _
               (Permutation_map (fun j => job_user (job_table j)) Hperm)).
    reflexivity.
  - rewrite (sum_Permutation _ _
               (Permutation_map (fun j => job_system (job_table j)) Hperm)).
    reflexivity.
Qed.

Lemma totals_do_not_depend_on_order_exact_witness :
  user_time (fst (job_loop [job_a; job_b] (set_status RUNNING
       (fst (ProcessMonitor_init ["cmd"%string] [job_a; job_b] calm)))))
  == user_time (fst (job_loop [job_b; job_a] (set_status RUNNING
       (fst (ProcessMonitor_init ["cmd"%string] [job_a; job_b] calm))))) /\
  system_time (fst (job_loop [job_a; job_b] (set_status RUNNING
       (fst (ProcessMonitor_init ["cmd"%string] [job_a; job_b] calm)))))
  == system_time (fst (job_loop [job_b; job_a] (set_status RUNNING
       (fst (ProcessMonitor_init ["cmd"%string] [job_a; job_b] calm))))).
Proof.
  apply (totals_do_not_depend_on_order_exact [job_a; job_b] [job_b; job_a]
           (set_status RUNNING
              (fst (ProcessMonitor_init ["cmd"%string] [job_a; job_b] calm)))).
  - apply perm_swap.
  - vm_compute. reflexivity.
  - vm_compute. reflexivity.
Defined.

(** C9, as stated, on the numbers of the code: three jobs with one process
    each, which used 0.1, 0.2 and 0.3 seconds of user time, give a
    [user_time] of 0.6000000000000001 in that order and of 0.6 in the
    reverse order. *)
Lemma totals_depend_on_order_binary64 :
  Permutation Binary64.jobs_123 Binary64.jobs_321 /\
  PrimFloat.eqb (Binary64.user_time (Binary64.fold_jobs Binary64.jobs_123))
                (Binary64.user_time (Binary64.fold_jobs Binary64.jobs_321))
    = false /\
  Binary64.user_time (Binary64.fold_jobs Binary64.jobs_123)
    <> Binary64.user_time (Binary64.fold_jobs Binary64.jobs_321).
Proof.
  split; [| split].
  - unfold Binary64.jobs_123, Binary64.jobs_321.
    apply Permutation_sym, Permutation_rev.
  - vm_compute. reflexivity.
  - intro H.
    assert (E : PrimFloat.eqb
                  (Binary64.user_time (Binary64.fold_jobs Binary64.jobs_123))
                  (Binary64.user_time (Binary64.fold_jobs Binary64.jobs_321))
                = true)
      by (rewrite H; vm_compute; reflexivity).
    vm_compute in E. discriminate.
Qed.

(** ** The command line *)

Section CommandLine.

Local Open Scope string_scope.

Lemma append_empty_r (s : string) : s ++ "" = s.
Proof. induction s as [| c s IH]; simpl; [reflexivity | rewrite IH; reflexivity]. Qed.

Lemma append_assoc (s t u : string) : (s ++ t) ++ u = s ++ (t ++ u).
Proof. induction s as [| c s IH]; simpl; [reflexivity | rewrite IH; reflexivity]. Qed.

Lemma append_not_empty (s : string) (c : ascii) (t : string) :
  s ++ String c t <> "".
Proof. destruct s; discriminate. Qed.

Lemma space_free_app (s t : string) :
  space_free (s ++ t) = space_free s && space_free t.
Proof.
  induction s as [| c s IH]; simpl; [reflexivity |].
  rewrite IH. apply andb_assoc.
Qed.

Lemma split_from_tokens (s tok : string) :
  space_free tok = true -> Forall token (split_from tok s).
Proof.
  revert tok. induction s as [| c s IH]; intros tok Htok; simpl.
  - destruct tok as [| a tok]; constructor; [| constructor].
    split; [discriminate | exact Htok].
  - destruct (isspace c) eqn:Hc.
    + destruct tok as [| a tok]; [apply IH; reflexivity |].
      constructor; [split; [discriminate | exact Htok] | apply IH; reflexivity].
    + apply IH. rewrite space_free_app, Htok. simpl. rewrite Hc. reflexivity.
Qed.

Lemma split_from_app (t tok rest : string) :
  space_free t = true ->
  split_from tok (t ++ rest) = split_from (tok ++ t) rest.
Proof.
  revert tok. induction t as [| c t IH]; intros tok Ht; simpl.
  - rewrite append_empty_r. reflexivity.
  - simpl in Ht. apply andb_prop in Ht. destruct Ht as [Hc Ht].
    apply negb_true_iff in Hc. rewrite Hc, IH by exact Ht.
    rewrite append_assoc. reflexivity.
Qed.

Lemma split_from_space (tok rest : string) :
  tok <> "" -> split_from tok (String " " rest) = tok :: split_from "" rest.
Proof.
  intro Hne. destruct tok; [contradiction | reflexivity].
Qed.

Lemma split_join_tokens (cmd : list string) :
  Forall token cmd -> str_split (shown_command cmd) = cmd.
Proof.
  unfold str_split, shown_command.
  induction 1 as [| t later [Hne Hfree] Hlater IH]; [reflexivity |].
  destruct later as [| t' later].
  - simpl. rewrite <- (append_empty_r t) at 1.
    rewrite split_from_app by exact Hfree. simpl.
    destruct t; [contradiction | reflexivity].
  - change (String.concat " " (t :: t' :: later))
      with (t ++ String " " (String.concat " " (t' :: later))).
    rewrite split_from_app by exact Hfree.
    change ("" ++ t) with t.
    rewrite split_from_space by exact Hne.
    rewrite IH. reflexivity.
Qed.

Lemma split_from_nil (s tok : string) :
  split_from tok s = [] <-> tok = "" /\ all_space s = true.
Proof.
  revert tok. induction s as [| c s IH]; intro tok; simpl.
  - destruct tok; split; intro H; try discriminate; try (destruct H; discriminate).
    + split; reflexivity.
    + reflexivity.
  - destruct (isspace c) eqn:Hc; simpl.
    + destruct tok as [| a tok]; [apply IH |].
      split; [discriminate | intros [H _]; discriminate].
    + rewrite IH. split; [intros [H _] | intros [_ H]; discriminate].
      exfalso. exact (append_not_empty _ _ _ H).
Qed.

(** X1: every token of [command.split()] is a non-empty string without
    whitespace, the job arguments are passed on untouched, and the command
    has no token at all exactly when it is empty or all whitespace. *)
Theorem parse_args_tokens (command_arg : string) (arguments : list string) :
  Forall token (fst (parse_args command_arg arguments)) /\
  snd (parse_args command_arg arguments) = arguments /\
  (fst (parse_args command_arg arguments) = [] <->
   all_space command_arg = true).
Proof.
  unfold parse_args, str_split. simpl. split; [| split].
  - apply split_from_tokens. reflexivity.
  - reflexivity.
  - rewrite split_from_nil. tauto.
Qed.

(** X2: the command line that [update_message] shows, the tokens joined by
    one space, splits back into the tokens that are run; so showing and
    splitting again changes nothing. *)
Theorem shown_command_splits_back (command_arg : string) (arguments : list string) :
  let cmd := fst (parse_args command_arg arguments) in
  str_split (shown_command cmd) = cmd /\
  shown_command (str_split (shown_command cmd)) = shown_command cmd.
Proof.
  simpl. assert (H : str_split (shown_command (str_split command_arg))
                     = str_split command_arg).
  { apply split_join_tokens. apply split_from_tokens. reflexivity. }
  split; [exact H | rewrite H; reflexivity].
Qed.

End CommandLine.

(** ** The Slack wrapper *)

Section Slack.

Local Open Scope string_scope.
Local Open Scope list_scope.

Lemma find_channel_app (name : string) (l1 l2 : list channel) :
  find_channel name (l1 ++ l2) =
    match find_channel name l1 with
    | Some id => Some id
    | None => find_channel name l2
    end.
Proof.
  induction l1 as [| c l1 IH]; simpl; [reflexivity |].
  destruct (String.eqb (ch_name c) name); [reflexivity | exact IH].
Qed.

Lemma find_channel_first (name : string) (channels : list channel) (id : string) :
  find_channel name channels = Some id <->
  exists before c after,
    channels = before ++ c :: after /\ ch_name c = name /\ ch_id c = id /\
    Forall (fun c' => ch_name c' <> name) before.
Proof.
  induction channels as [| c0 l IH]; simpl.
  - split; [discriminate |]. intros (before & c & after & H & _).
    destruct before; discriminate.
  - destruct (String.eqb_spec (ch_name c0) name) as [Heq | Hne].
    + split.
      * intro H. inversion H; subst id. exists [], c0, l.
        repeat split; [exact Heq | constructor].
      * intros (before & c & after & H & Hn & Hi & Hall).
        destruct before as [| b before]; simpl in H; inversion H; subst.
        -- reflexivity.
        -- inversion Hall; subst. contradiction.
    + rewrite IH. split.
      * intros (before & c & after & H & Hn & Hi & Hall).
        exists (c0 :: before), c, after. subst l.
        repeat split; try assumption. constructor; assumption.
      * intros (before & c & after & H & Hn & Hi & Hall).
        destruct before as [| b before]; simpl in H; inversion H; subst.
        -- contradiction.
        -- inversion Hall; subst. exists before, c, after. repeat split; assumption.
Qed.

Lemma get_channel_id_listed (name : string) (pages : list (api (list channel))) :
  forall id, snd (get_channel_id name pages) = Ok (Some id) <->
             find_channel name (listed pages) = Some id.
Proof.
  induction pages as [| [channels | | e] later IH]; intro id; simpl.
  - split; discriminate.
  - rewrite find_channel_app.
    destruct (find_channel name channels) as [id0 |]; simpl.
    + split; intro H; inversion H; reflexivity.
    + apply IH.
  - split; discriminate.
  - split; discriminate.
Qed.

(** X3: [_get_channel_id] returns an id exactly when, among the channels of
    the pages that came back before anything was raised, some channel has
    the wanted name; the id is that of the first such channel.  What a
    later page would have answered, or raised, is never seen. *)
Theorem get_channel_id_first_match (name : string)
    (pages : list (api (list channel))) (id : string) :
  snd (get_channel_id name pages) = Ok (Some id) <->
  exists before c after,
    listed pages = before ++ c :: after /\ ch_name c = name /\ ch_id c = id /\
    Forall (fun c' => ch_name c' <> name) before.
Proof.
  rewrite get_channel_id_listed. apply find_channel_first.
Qed.


Ltac init_cases :=
  unfold SlackClientWrapper_init;
  repeat match goal with
         | |- context [match ?x with _ => _ end] => destruct x eqn:?
         end;
  try discriminate.

(** What the constructor leaves in the object it builds. *)
Lemma SlackClientWrapper_init_Built (target : string) (debug : bool)
    (env : slack_env) (log : list slack_event) (sl : SlackClientWrapper) :
  SlackClientWrapper_init target debug env = (log, Built sl) ->
  se_environ env "SLACK_USER_ID" = Some (slack_user_id sl) /\
  se_environ env "SLACK_BOT_TOKEN" = Some (slack_bot_token sl) /\
  snd (get_channel_id target (se_pages env)) = Ok (channel_id sl) /\
  snd (post_base_message (channel_id sl) (se_who env) (se_posted env))
    = Ok (base_ts sl).
Proof.
  init_cases; intro H; inversion H; subst;
    cbn [slack_user_id slack_bot_token channel_id base_ts];
    repeat match goal with
           | E : _ = (_, _) |- _ => rewrite E; clear E
           end; simpl; repeat split; assumption.
Qed.

Lemma get_channel_id_log (name : string) (pages : list (api (list channel))) :
  Forall (fun ev => is_post ev = false) (fst (get_channel_id name pages)).
Proof.
  induction pages as [| [channels | | e] later IH]; simpl.
  - constructor.
  - destruct (find_channel name channels); [constructor | exact IH].
  - constructor; [reflexivity | constructor].
  - constructor.
Qed.








(** X5: when the channel is not found, the constructor logs an error, posts
    nothing and keeps no base message; from then on [update_post] and
    [ping_user] return without calling the client, whatever the client
    would have done. *)
Theorem no_channel_no_posts (target : string) (debug : bool) (env : slack_env)
    (log : list slack_event) (sl : SlackClientWrapper) :
  SlackClientWrapper_init target debug env = (log, Built sl) ->
  channel_id sl = None ->
  base_ts sl = None /\
  In LoggerError log /\
  Forall (fun ev => is_post ev = false) log /\
  forall (text : string) (o : api unit),
    update_post sl text o = ([], Ok tt) /\ ping_user sl text o = ([], Ok tt).
Proof.
  intros Hinit Hchan.
  assert (Hlog : In LoggerError log /\ Forall (fun ev => is_post ev = false) log /\
                 base_ts sl = None).
  { revert Hinit. init_cases; intro H; inversion H; subst; simpl in Hchan;
      try discriminate;
      match goal with
      | E : post_base_message None _ _ = _ |- _ => simpl in E; inversion E; subst
      end;
      simpl; rewrite ?app_nil_r.
    all: split; [apply in_or_app; right; left; reflexivity |].
    all: split; [| reflexivity].
    all: apply Forall_app; split; [| constructor; [reflexivity | constructor]].
    all: match goal with
         | E : get_channel_id ?n ?p = (?l, _) |- Forall _ ?l =>
             pose proof (get_channel_id_log n p) as Hl; rewrite E in Hl; exact Hl
         end. }
  destruct Hlog as (Hin & Hall & Hts).
  split; [exact Hts |]. split; [exact Hin |]. split; [exact Hall |].
  intros text o. unfold update_post, ping_user. rewrite Hchan. split; reflexivity.
Qed.

(** X6: when the constructor keeps a base message, the channel was found by
    name, the kept [base_ts] is the [ts] Slack returned for the base
    message, and from then on every [update_post] edits that message in that
    channel and every [ping_user] replies in its thread, naming the user of
    [SLACK_USER_ID]. *)
Theorem posts_go_to_the_base_message (target : string) (debug : bool)
    (env : slack_env) (log : list slack_event) (sl : SlackClientWrapper)
    (ts : string) :
  SlackClientWrapper_init target debug env = (log, Built sl) ->
  base_ts sl = Some ts ->
  exists c,
    channel_id sl = Some c /\
    find_channel target (listed (se_pages env)) = Some c /\
    se_posted env = Returned ts /\
    se_environ env "SLACK_USER_ID" = Some (slack_user_id sl) /\
    forall (text : string) (o : api unit),
      filter is_post (fst (update_post sl text o)) = [ChatUpdate c ts text] /\
      filter is_post (fst (ping_user sl text o)) =
        [ChatPostMessage c (Some ts) ("<@" ++ slack_user_id sl ++ "> " ++ text)].
Proof.
  intros Hinit Hts.
  destruct (SlackClientWrapper_init_Built _ _ _ _ _ Hinit)
    as (Huid & _ & Hchan & Hpost).
  rewrite Hts in Hpost. unfold post_base_message in Hpost.
  destruct (channel_id sl) as [c |] eqn:Hc; [| discriminate].
  exists c. split; [reflexivity |].
  split; [apply get_channel_id_listed; exact Hchan |].
  split.
  - destruct (se_posted env) as [t | | e]; simpl in Hpost; inversion Hpost.
    reflexivity.
  - split; [exact Huid |].
    intros text o. unfold update_post, ping_user. rewrite Hc, Hts.
    destruct o; split; reflexivity.
Qed.

Lemma no_channel_no_posts_witness :
  In LoggerError (fst (SlackClientWrapper_init "webhooks" true slack_env_lost)) /\
  forall (text : string) (o : api unit),
    update_post (mkSlack "U1" "xoxb" None None) text o = ([], Ok tt).
Proof.
  destruct (no_channel_no_posts "webhooks" true slack_env_lost
              (fst (SlackClientWrapper_init "webhooks" true slack_env_lost))
              (mkSlack "U1" "xoxb" None None))
    as (_ & Hin & _ & Hcalls).
  - reflexivity.
  - reflexivity.
  - split; [exact Hin | intros text o; apply Hcalls].
Defined.

Lemma posts_go_to_the_base_message_witness :
  exists c,
    find_channel "webhooks" (listed (se_pages slack_env_found)) = Some c /\
    forall (text : string) (o : api unit),
      filter is_post
        (fst (update_post (mkSlack "U1" "xoxb" (Some "C2") (Some "17.5")) text o))
        = [ChatUpdate c "17.5" text].
Proof.
  destruct (posts_go_to_the_base_message "webhooks" false slack_env_found
              (fst (SlackClientWrapper_init "webhooks" false slack_env_found))
              (mkSlack "U1" "xoxb" (Some "C2") (Some "17.5")) "17.5")
    as (c & _ & Hfind & _ & _ & Hcalls).
  - reflexivity.
  - reflexivity.
  - exists c. split; [exact Hfind | intros text o; apply Hcalls].
Defined.

Lemma get_channel_id_first_match_witness :
  snd (get_channel_id "webhooks" (se_pages slack_env_found)) = Ok (Some "C2").
Proof.
  apply (proj2 (get_channel_id_first_match "webhooks" (se_pages slack_env_found)
                  "C2")).
  exists [mkChannel "general" "C1"], (mkChannel "webhooks" "C2"),
         [mkChannel "webhooks" "C9"].
  split; [reflexivity |]. split; [reflexivity |]. split; [reflexivity |].
  constructor; [discriminate | constructor].
Defined.

End Slack.

(** ** The rate limiter over a sequence of calls *)

Lemma RateLimiter_call_period (now : Q) (r : RateLimiter) :
  period_sec (snd (RateLimiter_call now r)) = period_sec r.
Proof.
  unfold RateLimiter_call.
  destruct (Qlt_le_dec (period_sec r) (now - last_ok r)); reflexivity.
Qed.

Lemma allowed_times_sorted (p : Q) (times : list Q) (r : RateLimiter) :
  period_sec r = p ->
  Sorted (fun a b => p < b - a) (last_ok r :: allowed_times times r).
Proof.
  revert r. induction times as [| now later IH]; intros r Hp; simpl.
  - constructor; constructor.
  - pose proof (RateLimiter_call_period now r) as Hper.
    unfold RateLimiter_call in *. rewrite Hp in *.
    destruct (Qlt_le_dec p (now - last_ok r)) as [Hlt | Hle]; simpl in *.
    + specialize (IH (mkRateLimiter p now) eq_refl). simpl in IH.
      constructor; [exact IH | constructor; exact Hlt].
    + apply IH. exact Hp.
Qed.

(** X7: whatever the times of the successive calls of a limiter, each call
    it lets through comes more than [period_sec] after the one it let
    through before (and the first more than [period_sec] after the initial
    [last_ok]). *)
Theorem allowed_calls_are_spaced (times : list Q) (r : RateLimiter) :
  Sorted (fun a b => period_sec r < b - a) (last_ok r :: allowed_times times r).
Proof.
  apply allowed_times_sorted. reflexivity.
Qed.

(** ** More on one iteration *)

Lemma on_raise_same_counts (e : exn) (m : ProcessMonitor) :
  same_counts m (fst (on_raise e m)).
Proof.
  unfold on_raise. destruct (is_KeyboardInterrupt e); [destruct (proc m) |];
    same_counts_by_fields.
Qed.

(** Once the child is launched and the polling ends, the job is counted,
    however the rest of the iteration goes. *)
Lemma run_job_counted_once (arg : string) (je : job_env) (m : ProcessMonitor)
    (p : Process) (d : dict) :
  je_spawn je = Ok p ->
  poll_loop p (je_start je) (je_ticks je) [] = Ok d ->
  same_frame m (fst (run_job (arg, je) m)) /\
  counted_once (je_returncode je) d m (fst (run_job (arg, je) m)).
Proof.
  intros Hs Hp.
  destruct (run_job (arg, je) m) as [m' r] eqn:Hrun.
  pose proof (run_job_effect _ _ _ _ Hrun) as [Hf Hcases]. simpl in *.
  split; [exact Hf |].
  rewrite (run_job_counted arg je m p d Hs Hp) in Hrun. simpl in Hrun.
  assert (Hc : counted_once (je_returncode je) d m (counted arg je p d m))
    by (unfold counted_once, counted; simpl; repeat split).
  assert (Hsame : same_counts (counted arg je p d m) m').
  { revert Hrun. destruct (fst _).
    - destruct (get_stats_str _) as [s | e].
      + destruct (je_report je) as [u | e]; intro H.
        * inversion H; subst. same_counts_by_fields.
        * match type of H with
          | on_raise ?e0 ?x = _ => pose proof (on_raise_same_counts e0 x) as Hr
          end.
          rewrite H in Hr. revert Hr. same_counts_by_fields; tauto.
      + intro H. pose proof (on_raise_same_counts e (counted arg je p d m)) as Hr.
        rewrite H in Hr. exact Hr.
    - intro H. inversion H; subst. same_counts_by_fields. }
  destruct Hsame as [_ (H1 & H2 & H3 & H4)].
  unfold counted_once in *. rewrite H1, H2, H3, H4. exact Hc.
Qed.

(** X8: a job whose child has exited before the first poll is still counted
    as completed (and as failed when its exit code is not 0), and adds
    nothing to [user_time] and [system_time]. *)
Theorem job_without_a_sample_is_counted (arg : string) (je : job_env)
    (m : ProcessMonitor) (p : Process) :
  je_spawn je = Ok p ->
  je_ticks je = [] ->
  let m' := fst (run_job (arg, je) m) in
  completed m' = (completed m + 1)%nat /\
  failed m' = (failed m + (if Z.eqb (je_returncode je) 0 then 0 else 1))%nat /\
  user_time m' == user_time m /\
  system_time m' == system_time m.
Proof.
  intros Hs Ht. simpl.
  assert (Hp : poll_loop p (je_start je) (je_ticks je) [] = Ok [])
    by (rewrite Ht; reflexivity).
  destruct (run_job_counted_once arg je m p [] Hs Hp) as [_ (Hc & Hf & Hu & Hsy)].
  rewrite Hc, Hf, Hu, Hsy. repeat split.
  - unfold job_user, sum. simpl. ring.
  - unfold job_system, sum. simpl. ring.
Qed.

Lemma job_without_a_sample_is_counted_witness :
  let m := set_status RUNNING
             (fst (ProcessMonitor_init ["cmd"%string] [job_no_sample] calm)) in
  let m' := fst (run_job job_no_sample m) in
  completed m' = 1%nat /\ failed m' = 1%nat /\
  user_time m' == 0 /\ system_time m' == 0.
Proof.
  exact (job_without_a_sample_is_counted "quick"%string (snd job_no_sample)
           (set_status RUNNING
              (fst (ProcessMonitor_init ["cmd"%string] [job_no_sample] calm)))
           21%nat eq_refl eq_refl).
Defined.

(** X9: when the loop has run through all its jobs, [completed] has grown
    by their number and [failed] by the number of those whose exit code is
    not 0. *)
Theorem failed_counts_the_nonzero_exits (jobs : list job) (m m' : ProcessMonitor) :
  job_loop jobs m = (m', Ok Continue) ->
  completed m' = (completed m + List.length jobs)%nat /\
  failed m' = (failed m + List.length (filter exit_failed jobs))%nat.
Proof.
  revert m. induction jobs as [| j later IH]; intros m H.
  - simpl in H. unfold ret in H. inversion H; subst. simpl. lia.
  - rewrite job_loop_cons in H.
    destruct (run_job j m) as [m1 [[|] | e]] eqn:Hj; try discriminate.
    apply run_job_Continue in Hj.
    destruct Hj as [_ (p & d & _ & _ & Hc & Hf & _)].
    apply IH in H. destruct H as [Hc' Hf'].
    simpl. unfold exit_failed at 1.
    destruct (Z.eqb (je_returncode (snd j)) 0); simpl; lia.
Qed.

Lemma failed_counts_the_nonzero_exits_witness :
  let m := set_status RUNNING
             (fst (ProcessMonitor_init ["cmd"%string] [job_a; job_b] calm)) in
  completed (fst (job_loop [job_a; job_b] m)) =
    (completed m + List.length [job_a; job_b])%nat /\
  failed (fst (job_loop [job_a; job_b] m)) =
    (failed m + List.length (filter exit_failed [job_a; job_b]))%nat.
Proof.
  apply (failed_counts_the_nonzero_exits [job_a; job_b]
           (set_status RUNNING
              (fst (ProcessMonitor_init ["cmd"%string] [job_a; job_b] calm)))).
  vm_compute. reflexivity.
Defined.

(** ** The table of one job *)

Lemma dict_set_keys (k : Process) (v : pcputimes) (d : dict) :
  NoDup (map fst d) ->
  NoDup (map fst (dict_set k v d)) /\
  (forall k', In k' (map fst (dict_set k v d)) <-> k' = k \/ In k' (map fst d)).
Proof.
  induction d as [| [k0 v0] d IH]; simpl; intro Hnd.
  - split; [constructor; [intros [] | constructor] |].
    intro k'. split; [intros [H | []]; left; symmetry; exact H |
                      intros [H | []]; left; symmetry; exact H].
  - inversion Hnd as [| x l Hnot Hnd']; subst.
    destruct (Nat.eqb_spec k k0) as [-> | Hne]; simpl.
    + split; [constructor; assumption |].
      intro k'. split; [intros [H | H]; [left; symmetry; exact H | right; right; exact H] |
                        intros [H | [H | H]]; [left; symmetry; exact H | left; exact H |
                                               right; exact H]].
    + destruct (IH Hnd') as [IHnd IHin]. split.
      * constructor; [| exact IHnd].
        intro Hin. apply IHin in Hin. destruct Hin as [H | H];
          [apply Hne; symmetry; exact H | exact (Hnot H)].
      * intro k'. rewrite IHin. tauto.
Qed.

Lemma sample_tree_hit (f : Process -> result pcputimes) (ms : list Process)
    (d d' : dict) (pc : Process) (s : pcputimes) :
  sample_tree f ms d = Ok d' -> In pc ms -> f pc = Ok s ->
  dict_get pc d' = Some s.
Proof.
  revert d. induction ms as [| pc0 rest IH]; intros d Hrun Hin Hs; [contradiction |].
  simpl in Hrun.
  destruct (in_dec Nat.eq_dec pc rest) as [Hrest | Hnot].
  - destruct (f pc0) as [s0 | e0]; [eapply IH; eassumption |].
    destruct (is_psutil_Error e0); [eapply IH; eassumption | discriminate].
  - destruct Hin as [-> | Hin]; [| contradiction].
    rewrite Hs in Hrun. clear IH.
    assert (Hkeep : forall ms' d0 d1,
              sample_tree f ms' d0 = Ok d1 -> ~ In pc ms' ->
              dict_get pc d1 = dict_get pc d0).
    { induction ms' as [| q ms' IH']; intros d0 d1 H Hn; simpl in H.
      - inversion H. reflexivity.
      - assert (Hq : q <> pc) by (intro E; apply Hn; left; exact E).
        assert (Hn' : ~ In pc ms') by (intro E; apply Hn; right; exact E).
        destruct (f q) as [sq | eq].
        + rewrite (IH' _ _ H Hn'). apply dict_get_set_other.
          intro E. apply Hq. symmetry. exact E.
        + destruct (is_psutil_Error eq); [exact (IH' _ _ H Hn') | discriminate]. }
    rewrite (Hkeep _ _ _ Hrun Hnot). apply dict_get_set_same.
Qed.

Lemma sample_tree_miss (f : Process -> result pcputimes) (ms : list Process)
    (d d' : dict) (pc : Process) :
  sample_tree f ms d = Ok d' ->
  ~ In pc ms \/ (exists e, f pc = Raise e) ->
  dict_get pc d' = dict_get pc d.
Proof.
  revert d. induction ms as [| q rest IH]; intros d Hrun Hmiss; simpl in Hrun.
  - inversion Hrun. reflexivity.
  - assert (Hmiss' : ~ In pc rest \/ (exists e, f pc = Raise e)).
    { destruct Hmiss as [Hn | He]; [left; intro E; apply Hn; right; exact E |
                                    right; exact He]. }
    destruct (f q) as [sq | eq] eqn:Hq.
    + rewrite (IH _ Hrun Hmiss'). apply dict_get_set_other.
      intros ->. destruct Hmiss as [Hn | [e He]];
        [apply Hn; left; reflexivity | congruence].
    + destruct (is_psutil_Error eq); [exact (IH _ Hrun Hmiss') | discriminate].
Qed.

Lemma sample_tree_keys (f : Process -> result pcputimes) (ms : list Process)
    (d d' : dict) :
  sample_tree f ms d = Ok d' -> NoDup (map fst d) ->
  NoDup (map fst d') /\
  (forall pc s, dict_get pc d' = Some s ->
                dict_get pc d = Some s \/ (In pc ms /\ f pc = Ok s)).
Proof.
  intros Hrun Hnd. split.
  - revert d Hrun Hnd. induction ms as [| q rest IH]; intros d Hrun Hnd;
      simpl in Hrun.
    + inversion Hrun; subst. exact Hnd.
    + destruct (f q) as [sq | eq].
      * apply (IH _ Hrun). apply dict_set_keys. exact Hnd.
      * destruct (is_psutil_Error eq); [exact (IH _ Hrun Hnd) | discriminate].
  - intros pc s Hget.
    destruct (in_dec Nat.eq_dec pc ms) as [Hin | Hnot].
    + destruct (f pc) as [s' | e] eqn:Hf.
      * right. split; [exact Hin |].
        rewrite (sample_tree_hit f ms d d' pc s' Hrun Hin Hf) in Hget.
        inversion Hget. reflexivity.
      * left. rewrite <- Hget. symmetry.
        apply (sample_tree_miss f ms d d' pc Hrun). right. exists e. exact Hf.
    + left. rewrite <- Hget. symmetry.
      apply (sample_tree_miss f ms d d' pc Hrun). left. exact Hnot.
Qed.

Lemma poll_loop_cons (p : Process) (job_start : Q) (tk : tick)
    (later : list tick) (d : dict) :
  poll_loop p job_start (tk :: later) d =
    match sample_tree (tk_cpu_times tk) (p :: tk_children tk) d with
    | Ok d1 =>
        match sleep_log10 (tk_now tk - job_start + 1) (tk_sleep tk) with
        | Ok _ => poll_loop p job_start later d1
        | Raise e => Raise e
        end
    | Raise e => Raise e
    end.
Proof. reflexivity. Qed.

Lemma poll_loop_app (p : Process) (job_start : Q) (l1 l2 : list tick)
    (d d' : dict) :
  poll_loop p job_start (l1 ++ l2) d = Ok d' ->
  exists d1, poll_loop p job_start l1 d = Ok d1 /\
             poll_loop p job_start l2 d1 = Ok d'.
Proof.
  revert d. induction l1 as [| tk l1 IH]; intros d H.
  - exists d. split; [reflexivity | exact H].
  - rewrite <- app_comm_cons in H. rewrite poll_loop_cons in *.
    destruct (sample_tree (tk_cpu_times tk) (p :: tk_children tk) d) as [d1 | e];
      [| discriminate].
    destruct (sleep_log10 _ _); [| discriminate].
    exact (IH _ H).
Qed.

Lemma poll_loop_missed (p : Process) (job_start : Q) (ticks : list tick)
    (d d' : dict) (pc : Process) :
  poll_loop p job_start ticks d = Ok d' ->
  Forall (fun tk => missed p tk pc) ticks ->
  dict_get pc d' = dict_get pc d.
Proof.
  intros Hrun Hall. revert d Hrun.
  induction Hall as [| tk later Hmiss _ IH]; intros d Hrun.
  - simpl in Hrun. inversion Hrun. reflexivity.
  - rewrite poll_loop_cons in Hrun.
    destruct (sample_tree (tk_cpu_times tk) (p :: tk_children tk) d)
      as [d1 | e] eqn:Hs; [| discriminate].
    destruct (sleep_log10 _ _); [| discriminate].
    rewrite (IH _ Hrun). exact (sample_tree_miss _ _ _ _ _ Hs Hmiss).
Qed.

(** X10: the table a job ends with holds, for a process, the times of the
    last poll that sampled it: if [pc] is sampled at one poll and missed at
    every later one (not listed any more, or gone when asked), its entry is
    still that sample when the job is folded into the totals. *)
Theorem table_keeps_the_last_sample (p : Process) (job_start : Q)
    (before : list tick) (tk : tick) (after : list tick) (d : dict)
    (pc : Process) (s : pcputimes) :
  poll_loop p job_start (before ++ tk :: after) [] = Ok d ->
  sampled p tk pc s ->
  Forall (fun tk' => missed p tk' pc) after ->
  dict_get pc d = Some s.
Proof.
  intros Hrun [Hin Hs] Hafter.
  apply poll_loop_app in Hrun. destruct Hrun as (d1 & _ & Hrun).
  rewrite poll_loop_cons in Hrun.
  destruct (sample_tree (tk_cpu_times tk) (p :: tk_children tk) d1)
    as [d2 | e] eqn:Htree; [| discriminate].
  destruct (sleep_log10 _ _); [| discriminate].
  rewrite (poll_loop_missed _ _ _ _ _ _ Hrun Hafter).
  exact (sample_tree_hit _ _ _ _ _ _ Htree Hin Hs).
Qed.

Lemma poll_loop_keys (p : Process) (job_start : Q) (ticks : list tick)
    (d d' : dict) :
  poll_loop p job_start ticks d = Ok d' -> NoDup (map fst d) ->
  NoDup (map fst d') /\
  (forall pc s, dict_get pc d' = Some s ->
                dict_get pc d = Some s \/
                exists tk, In tk ticks /\ sampled p tk pc s).
Proof.
  revert d. induction ticks as [| tk later IH]; intros d Hrun Hnd.
  - simpl in Hrun. inversion Hrun; subst. split; [exact Hnd |].
    intros pc s H. left. exact H.
  - rewrite poll_loop_cons in Hrun.
    destruct (sample_tree (tk_cpu_times tk) (p :: tk_children tk) d)
      as [d1 | e] eqn:Hs; [| discriminate].
    destruct (sleep_log10 _ _); [| discriminate].
    destruct (sample_tree_keys _ _ _ _ Hs Hnd) as [Hnd1 Hfrom1].
    destruct (IH _ Hrun Hnd1) as [Hnd' Hfrom]. split; [exact Hnd' |].
    intros pc s Hget. destruct (Hfrom pc s Hget) as [H1 | (tk' & Hin & Hsam)].
    + destruct (Hfrom1 pc s H1) as [H0 | Hsam]; [left; exact H0 |].
      right. exists tk. split; [left; reflexivity | exact Hsam].
    + right. exists tk'. split; [right; exact Hin | exact Hsam].
Qed.

(** X11: the table a job ends with has one entry per process, and every
    entry is a sample that some poll of this job really took of that
    process, the root or one of its listed descendants. *)
Theorem table_has_one_entry_per_process (p : Process) (job_start : Q)
    (ticks : list tick) (d : dict) :
  poll_loop p job_start ticks [] = Ok d ->
  NoDup (map fst d) /\
  (forall pc s, dict_get pc d = Some s ->
                exists tk, In tk ticks /\ sampled p tk pc s).
Proof.
  intro Hrun.
  destruct (poll_loop_keys p job_start ticks [] d Hrun (NoDup_nil _))
    as [Hnd Hfrom].
  split; [exact Hnd |].
  intros pc s Hget. destruct (Hfrom pc s Hget) as [H | H]; [discriminate | exact H].
Qed.

Lemma table_keeps_the_last_sample_witness :
  dict_get 12%nat
    (job_table ("a"%string,
                mkJobEnv 1001 (Ok 11%nat) [tick_all_alive; tick_child_gone]
                  0 1003 1003 (Ok tt)))
  = Some (mkTimes (3#100) (1#100)).
Proof.
  apply (table_keeps_the_last_sample 11%nat 1001 [] tick_all_alive
           [tick_child_gone]).
  - vm_compute. reflexivity.
  - split; [right; left; reflexivity | reflexivity].
  - constructor; [| constructor]. unfold missed. right.
    exists NoSuchProcess. reflexivity.
Defined.

Lemma table_has_one_entry_per_process_witness :
  NoDup (map fst
           (job_table ("a"%string,
                       mkJobEnv 1001 (Ok 11%nat) [tick_all_alive; tick_child_gone]
                         0 1003 1003 (Ok tt)))).
Proof.
  apply (table_has_one_entry_per_process 11%nat 1001
           [tick_all_alive; tick_child_gone]).
  vm_compute. reflexivity.
Defined.

(** ** The exit code and the control flow *)

(** X12: the exit code of a job decides nothing but [failed]: with any other
    exit code the iteration ends the same way (goes on, breaks or raises
    the same exception), with the same [completed], status and totals.  A
    failing job never stops the run. *)
Theorem exit_code_does_not_stop_the_loop (arg : string) (je : job_env)
    (m : ProcessMonitor) (rc : Z) :
  let (m1, r1) := run_job (arg, with_returncode rc je) m in
  let (m2, r2) := run_job (arg, je) m in
  r1 = r2 /\ completed m1 = completed m2 /\ status m1 = status m2 /\
  user_time m1 = user_time m2 /\ system_time m1 = system_time m2.
Proof.
  destruct (je_spawn je) as [p | e] eqn:Hs.
  - destruct (poll_loop p (je_start je) (je_ticks je) []) as [d | e] eqn:Hp.
    + rewrite (run_job_counted arg (with_returncode rc je) m p d Hs Hp).
      rewrite (run_job_counted arg je m p d Hs Hp).
      unfold counted, get_stats_str, on_raise. simpl.
      destruct (fst (RateLimiter_call (je_gate_now je) (rate_limiter m)));
        [| repeat split].
      destruct (py_truediv _ _) as [q | e];
        [| simpl; destruct (is_KeyboardInterrupt e); repeat split].
      destruct (py_div _ _) as [q' | e];
        [| simpl; destruct (is_KeyboardInterrupt e); repeat split].
      destruct (je_report je) as [u | e]; [repeat split |].
      simpl. destruct (is_KeyboardInterrupt e); simpl; repeat split.
    + rewrite (run_job_poll_raises arg (with_returncode rc je) m p e Hs Hp).
      rewrite (run_job_poll_raises arg je m p e Hs Hp).
      destruct (on_raise e _) as [m1 r1]. repeat split.
  - rewrite (run_job_spawn_raises arg (with_returncode rc je) m e Hs).
    rewrite (run_job_spawn_raises arg je m e Hs).
    destruct (on_raise e _) as [m1 r1]. repeat split.
Qed.

(** ** The external calls of a run *)

Lemma launches_app (l1 l2 : list event) :
  launches (l1 ++ l2) = launches l1 ++ launches l2.
Proof.
  induction l1 as [| [cmd | p | st b |] l1 IH]; simpl; rewrite ?IH; reflexivity.
Qed.

Lemma pings_app (l1 l2 : list event) :
  pings (l1 ++ l2) = (pings l1 + pings l2)%nat.
Proof.
  induction l1 as [| [cmd | p | st b |] l1 IH]; simpl; rewrite ?IH; reflexivity.
Qed.

Lemma quiet_events (l : list event) :
  forallb quiet l = true -> launches l = [] /\ pings l = 0%nat.
Proof.
  induction l as [| [cmd | p | st b |] l IH]; simpl; intro H;
    try discriminate; auto.
Qed.

(** What an exception in the [try] adds to the log. *)
Lemma on_raise_calls (e : exn) (m : ProcessMonitor) :
  exists evs, calls (fst (on_raise e m)) = calls m ++ evs /\
              forallb quiet evs = true.
Proof.
  unfold on_raise. destruct (is_KeyboardInterrupt e); [destruct (proc m) as [p |] |];
    simpl; try (exists []; rewrite app_nil_r; split; reflexivity).
  exists [Terminate p]. split; reflexivity.
Qed.

(** One iteration calls [Popen] once, first, and never pings. *)
Lemma run_job_calls (arg : string) (je : job_env) (m : ProcessMonitor) :
  exists evs,
    calls (fst (run_job (arg, je) m))
      = calls m ++ Popen (command m ++ [arg]) :: evs /\
    forallb quiet evs = true.
Proof.
  destruct (je_spawn je) as [p | e] eqn:Hs.
  - destruct (poll_loop p (je_start je) (je_ticks je) []) as [d | e] eqn:Hp.
    + rewrite (run_job_counted arg je m p d Hs Hp). cbv zeta.
      assert (Hcnt : calls (counted arg je p d m)
                     = calls m ++ [Popen (command m ++ [arg])]) by reflexivity.
      destruct (fst (RateLimiter_call (je_gate_now je)
                       (rate_limiter (account (je_returncode je) d (je_done je) m)))).
      * destruct (get_stats_str (counted arg je p d m)) as [s | e].
        -- destruct (je_report je) as [u | e].
           ++ cbn [fst calls record_call]. rewrite Hcnt. eexists.
              rewrite <- app_assoc. split; reflexivity.
           ++ match goal with
              | |- context [on_raise ?e0 ?x] =>
                  destruct (on_raise_calls e0 x) as (evs & Hc & Hq)
              end.
              rewrite Hc. cbn [calls record_call]. rewrite Hcnt. eexists.
              rewrite <- !app_assoc. simpl.
              split; [reflexivity | exact Hq].
        -- destruct (on_raise_calls e (counted arg je p d m)) as (evs & Hc & Hq).
           rewrite Hc, Hcnt. eexists. rewrite <- !app_assoc. simpl.
           split; [reflexivity | exact Hq].
      * cbn [fst]. rewrite Hcnt. exists []. split; reflexivity.
    + rewrite (run_job_poll_raises arg je m p e Hs Hp).
      match goal with
      | |- context [on_raise ?e0 ?x] =>
          destruct (on_raise_calls e0 x) as (evs & Hc & Hq)
      end.
      rewrite Hc. simpl. eexists. rewrite <- !app_assoc. simpl.
      split; [reflexivity | exact Hq].
  - rewrite (run_job_spawn_raises arg je m e Hs).
    match goal with
    | |- context [on_raise ?e0 ?x] =>
        destruct (on_raise_calls e0 x) as (evs & Hc & Hq)
    end.
    rewrite Hc. simpl. eexists. rewrite <- !app_assoc. simpl.
    split; [reflexivity | exact Hq].
Qed.

Lemma run_job_command (j : job) (m : ProcessMonitor) :
  command (fst (run_job j m)) = command m.
Proof.
  destruct (run_job j m) as [m' r] eqn:H. apply run_job_effect in H.
  destruct H as [(_ & Hc & _) _]. exact Hc.
Qed.

(** The loop launches a prefix of the jobs, in order, and never pings. *)
Lemma job_loop_calls (jobs : list job) (m : ProcessMonitor) :
  exists k evs,
    (k <= List.length jobs)%nat /\
    calls (fst (job_loop jobs m)) = calls m ++ evs /\
    launches evs = map (fun j => command m ++ [fst j]) (firstn k jobs) /\
    pings evs = 0%nat /\
    (snd (job_loop jobs m) = Ok Continue -> k = List.length jobs).
Proof.
  revert m. induction jobs as [| [arg je] later IH]; intro m.
  - exists 0%nat, []. simpl. rewrite app_nil_r. repeat split. lia.
  - rewrite job_loop_cons.
    destruct (run_job_calls arg je m) as (evs & Hc & Hq).
    pose proof (run_job_command (arg, je) m) as Hcmd.
    destruct (quiet_events evs Hq) as [Hl Hp].
    destruct (run_job (arg, je) m) as [m1 [[|] | e]]; simpl in Hc, Hcmd.
    + destruct (IH m1) as (k & evs' & Hk & Hc' & Hl' & Hp' & Hend).
      exists (S k), (Popen (command m ++ [arg]) :: evs ++ evs').
      split; [simpl; lia |]. split.
      * rewrite Hc', Hc, <- app_assoc. reflexivity.
      * split; [| split].
        -- simpl. rewrite launches_app, Hl, Hl', Hcmd. reflexivity.
        -- simpl. rewrite pings_app, Hp, Hp'. reflexivity.
        -- intro H. simpl. rewrite (Hend H). reflexivity.
    + exists 1%nat, (Popen (command m ++ [arg]) :: evs). simpl.
      split; [lia |]. split; [exact Hc |].
      split; [rewrite Hl; reflexivity |]. split; [exact Hp | discriminate].
    + exists 1%nat, (Popen (command m ++ [arg]) :: evs). simpl.
      split; [lia |]. split; [exact Hc |].
      split; [rewrite Hl; reflexivity |]. split; [exact Hp | discriminate].
Qed.

(** What a report adds to the log. *)
Lemma report_calls (sent : result unit) (m : ProcessMonitor) :
  (exists s, fst (report sent m)
             = record_call (UpdatePost (status m) (StatsText s)) m /\
             snd (report sent m) = sent) \/
  (fst (report sent m) = m /\ exists e, snd (report sent m) = Raise e).
Proof.
  rewrite report_eq. destruct (get_stats_str m) as [s | e].
  - left. exists s. split; reflexivity.
  - right. split; [reflexivity | exists e; reflexivity].
Qed.

Lemma final_status_calls (m : ProcessMonitor) :
  calls (final_status m) = calls m /\ command (final_status m) = command m.
Proof.
  unfold final_status.
  destruct (Nat.eqb (completed m) (List.length (args m)));
    [destruct (Nat.eqb (failed m) 0) |]; split; reflexivity.
Qed.

(** After the loop: the log of [main] is the log of the loop, then at most
    two messages, then at most one ping. *)
Lemma main_calls (cmd : list string) (jobs : list job) (w : world)
    (m0 : ProcessMonitor) (u : unit) :
  ProcessMonitor_init cmd jobs w = (m0, Ok u) ->
  exists evs,
    calls (fst (main cmd jobs w))
      = calls (fst (job_loop jobs (set_status RUNNING m0))) ++ evs /\
    launches evs = [] /\ (pings evs <= 1)%nat.
Proof.
  intro Hinit. rewrite main_eq, Hinit, run_jobs_eq.
  destruct (job_loop jobs (set_status RUNNING m0)) as [m1 [c | e]]; simpl.
  - rewrite finish_eq.
    set (mB := final_status (set_real_time (w_end w - start m1) m1)).
    assert (HB : calls mB = calls m1)
      by (unfold mB; rewrite (proj1 (final_status_calls _)); reflexivity).
    destruct (report_calls (w_final_report w) mB) as [(s & Hf & Hs) | (Hf & e & Hs)];
      destruct (report (w_final_report w) mB) as [m2 r2]; simpl in Hf, Hs; subst m2.
    + destruct r2 as [u2 | e2].
      * simpl. rewrite HB. eexists. rewrite <- app_assoc. simpl.
        split; [reflexivity |]. split; [reflexivity | simpl; lia].
      * match goal with
        | |- context [report ?sent ?x] =>
            destruct (report_calls sent x) as [(s' & Hf' & Hs') | (Hf' & e' & Hs')];
            destruct (report sent x) as [m3 r3]; simpl in Hf', Hs'; subst m3
        end.
        -- destruct r3; simpl; rewrite HB; eexists; rewrite <- !app_assoc; simpl;
             (split; [reflexivity |]); (split; [reflexivity | simpl; lia]).
        -- subst r3. simpl. rewrite HB. eexists.
           split; [reflexivity |]. split; [reflexivity | simpl; lia].
    + subst r2.
      match goal with
      | |- context [report ?sent ?x] =>
          destruct (report_calls sent x) as [(s' & Hf' & Hs') | (Hf' & e' & Hs')];
          destruct (report sent x) as [m3 r3]; simpl in Hf', Hs'; subst m3
      end.
      * destruct r3; simpl; rewrite HB; eexists; rewrite <- ?app_assoc; simpl;
          (split; [reflexivity |]); (split; [reflexivity | simpl; lia]).
      * subst r3. simpl. rewrite HB. exists []. rewrite app_nil_r.
        split; [reflexivity |]. split; [reflexivity | simpl; lia].
  - match goal with
    | |- context [report ?sent ?x] =>
        destruct (report_calls sent x) as [(s' & Hf' & Hs') | (Hf' & e' & Hs')];
        destruct (report sent x) as [m3 r3]; simpl in Hf', Hs'; subst m3
    end.
    + destruct r3; simpl; eexists; rewrite <- ?app_assoc; simpl;
        (split; [reflexivity |]); (split; [reflexivity | simpl; lia]).
    + subst r3. simpl. exists []. rewrite app_nil_r.
      split; [reflexivity |]. split; [reflexivity | simpl; lia].
Qed.

(** X13: the command lines [main] hands to [subprocess.Popen] are the
    command followed by the argument of the job, for a first part of the job
    list and in its order: no job is launched twice, skipped over or
    launched after a later one, and the user is pinged at most once. *)
Theorem jobs_are_launched_in_order (cmd : list string) (jobs : list job)
    (w : world) :
  (exists k, (k <= List.length jobs)%nat /\
     launches (calls (fst (main cmd jobs w)))
       = map (fun j => cmd ++ [fst j]) (firstn k jobs)) /\
  (pings (calls (fst (main cmd jobs w))) <= 1)%nat.
Proof.
  destruct (ProcessMonitor_init cmd jobs w) as [m0 [u | e]] eqn:Hinit.
  - destruct (main_calls cmd jobs w m0 u Hinit) as (evs & Hc & Hl & Hp).
    destruct (job_loop_calls jobs (set_status RUNNING m0))
      as (k & evs' & Hk & Hc' & Hl' & Hp' & _).
    rewrite ProcessMonitor_init_eq in Hinit. inversion Hinit; subst m0.
    simpl in Hc', Hl'. rewrite Hc, Hc'. split.
    + exists k. split; [exact Hk |].
      rewrite !launches_app. simpl. rewrite Hl, Hl', app_nil_r. reflexivity.
    + rewrite !pings_app. simpl. rewrite Hp'. lia.
  - rewrite main_eq, Hinit. rewrite ProcessMonitor_init_eq in Hinit.
    inversion Hinit; subst. simpl. split; [| lia].
    exists 0%nat. split; [lia | reflexivity].
Qed.

(** ** How [main] returns *)

Lemma on_raise_Break (e : exn) (m m' : ProcessMonitor) :
  on_raise e m = (m', Ok Break) -> status m' = INTERRUPTED.
Proof.
  unfold on_raise. destruct (is_KeyboardInterrupt e); [destruct (proc m) |];
    intro H; inversion H; reflexivity.
Qed.

Lemma run_job_Break (j : job) (m m' : ProcessMonitor) :
  run_job j m = (m', Ok Break) -> status m' = INTERRUPTED.
Proof.
  destruct j as [arg je].
  destruct (je_spawn je) as [p | e] eqn:Hs.
  - destruct (poll_loop p (je_start je) (je_ticks je) []) as [d | e] eqn:Hp.
    + rewrite (run_job_counted arg je m p d Hs Hp). cbv zeta.
      destruct (fst _); [| discriminate].
      destruct (get_stats_str _) as [s | e]; [| apply on_raise_Break].
      destruct (je_report je) as [u | e]; [discriminate | apply on_raise_Break].
    + rewrite (run_job_poll_raises arg je m p e Hs Hp). apply on_raise_Break.
  - rewrite (run_job_spawn_raises arg je m e Hs). apply on_raise_Break.
Qed.

Lemma job_loop_Break (jobs : list job) (m m' : ProcessMonitor) :
  job_loop jobs m = (m', Ok Break) -> status m' = INTERRUPTED.
Proof.
  revert m. induction jobs as [| j later IH]; intros m H.
  - discriminate.
  - rewrite job_loop_cons in H.
    destruct (run_job j m) as [m1 [[|] | e]] eqn:Hj; try discriminate.
    + exact (IH _ H).
    + inversion H; subst. exact (run_job_Break _ _ _ Hj).
Qed.

(** The handler of [main], when it gets through. *)
Lemma crash_handler_returns (w : world) (m2 m : ProcessMonitor) :
  match report (w_crash_report w) (set_status CRASHED m2) with
  | (m3, Ok _) => (record_call PingUser m3, w_ping w)
  | (m3, Raise e) => (m3, Raise e)
  end = (m, Ok tt) ->
  status m = CRASHED /\
  exists s, calls m = calls m2 ++ [UpdatePost CRASHED (StatsText s); PingUser].
Proof.
  rewrite report_eq.
  destruct (get_stats_str (set_status CRASHED m2)) as [s | e]; [| discriminate].
  destruct (w_crash_report w) as [u | e]; [| discriminate].
  intro H. inversion H; subst. simpl. split; [reflexivity |].
  exists s. rewrite <- app_assoc. reflexivity.
Qed.

(** X14: when [main] returns, the status is one of [COMPLETED],
    [COMPLETED_WITH_ERRORS], [INTERRUPTED] and [CRASHED], never [STARTED]
    or [RUNNING]; the last two external calls are the message that carries
    this status and the one ping of the run. *)
Theorem main_returns_after_the_final_report (cmd : list string)
    (jobs : list job) (w : world) (m : ProcessMonitor) :
  main cmd jobs w = (m, Ok tt) ->
  terminal (status m) /\
  exists before s,
    calls m = before ++ [UpdatePost (status m) (StatsText s); PingUser] /\
    pings before = 0%nat.
Proof.
  rewrite main_eq.
  destruct (ProcessMonitor_init cmd jobs w) as [m0 [u | e]] eqn:Hinit;
    [| discriminate].
  rewrite ProcessMonitor_init_eq in Hinit. inversion Hinit; subst m0. clear Hinit.
  set (m0 := mkMonitor cmd (map fst jobs) STARTED (RateLimiter_init 4)
               (w_start w) 0 0 0 0 0 None [UpdatePost STARTED EmptyText]).
  rewrite run_jobs_eq.
  destruct (job_loop_calls jobs (set_status RUNNING m0))
    as (k & evs & _ & Hcalls & _ & Hpings & _).
  destruct (job_loop jobs (set_status RUNNING m0)) as [m1 r] eqn:Hloop.
  simpl in Hcalls.
  assert (Hp1 : pings (calls m1) = 0%nat) by (rewrite Hcalls; simpl; exact Hpings).
  assert (Hcrash : forall m2,
            pings (calls m2) = 0%nat ->
            match report (w_crash_report w) (set_status CRASHED m2) with
            | (m3, Ok _) => (record_call PingUser m3, w_ping w)
            | (m3, Raise e) => (m3, Raise e)
            end = (m, Ok tt) ->
            terminal (status m) /\
            exists before s,
              calls m = before ++ [UpdatePost (status m) (StatsText s); PingUser] /\
              pings before = 0%nat).
  { intros m2 Hp2 H. destruct (crash_handler_returns w m2 m H) as [Hst (s & Hc)].
    rewrite Hst. split; [right; right; right; reflexivity |].
    exists (calls m2), s. split; assumption. }
  destruct r as [c | e]; [| apply Hcrash; exact Hp1].
  rewrite finish_eq.
  set (mB := final_status (set_real_time (w_end w - start m1) m1)).
  assert (HB : calls mB = calls m1)
    by (unfold mB; rewrite (proj1 (final_status_calls _)); reflexivity).
  assert (HstB : status mB = COMPLETED \/ status mB = COMPLETED_WITH_ERRORS \/
                 status mB = INTERRUPTED).
  { destruct c.
    - pose proof (job_loop_Continue _ _ _ Hloop) as [(Ha & _ & _) Hc].
      simpl in Ha, Hc. unfold mB, final_status. simpl.
      rewrite Hc, Ha. simpl. rewrite length_map, Nat.eqb_refl.
      destruct (Nat.eqb (failed m1) 0); simpl; auto.
    - pose proof (job_loop_Break _ _ _ Hloop) as Hst.
      unfold mB, final_status. simpl.
      destruct (Nat.eqb (completed m1) (List.length (args m1)));
        [destruct (Nat.eqb (failed m1) 0) |]; simpl; auto. }
  rewrite report_eq.
  destruct (get_stats_str mB) as [s | e].
  - destruct (w_final_report w) as [u' | e].
    + intro H. inversion H; subst. simpl. split.
      * unfold terminal. tauto.
      * exists (calls mB), s. split; [rewrite <- app_assoc; reflexivity |].
        rewrite HB. exact Hp1.
    + apply Hcrash. simpl. rewrite pings_app, HB, Hp1. reflexivity.
  - apply Hcrash. rewrite HB. exact Hp1.
Qed.

Lemma main_returns_after_the_final_report_witness :
  terminal (status (fst (main ["cmd"%string] [job_a; job_b] calm))) /\
  exists before s,
    calls (fst (main ["cmd"%string] [job_a; job_b] calm))
      = before ++ [UpdatePost (status (fst (main ["cmd"%string] [job_a; job_b] calm)))
                     (StatsText s); PingUser] /\
    pings before = 0%nat.
Proof.
  apply (main_returns_after_the_final_report ["cmd"%string] [job_a; job_b] calm).
  vm_compute. reflexivity.
Defined.

(** ** The percentage of completed jobs *)

Lemma get_stats_str_shown_pct (m : ProcessMonitor) (s : stats_str) :
  get_stats_str m = Ok s ->
  ss_completed_pct s = shown_pct (completed m) (List.length (args m)) /\
  ss_completed s = completed m /\ ss_total s = List.length (args m) /\
  List.length (args m) <> 0%nat.
Proof.
  unfold get_stats_str, py_truediv.
  destruct (Nat.eqb_spec (List.length (args m)) 0) as [E | E]; [discriminate |].
  destruct (py_div (user_time m + system_time m) (real_time m)) as [q | e];
    [| discriminate].
  intro H. inversion H; subst s. repeat split. exact E.
Qed.

Lemma pct_ok_200 : pct_ok_upto 200 = true.
Proof. vm_compute. reflexivity. Qed.

Lemma pct_ok_upto_spec (n total completed : nat) :
  pct_ok_upto n = true ->
  (1 <= total <= n)%nat -> (completed <= total)%nat ->
  pct_ok total completed = true.
Proof.
  unfold pct_ok_upto. intros H Ht Hc.
  rewrite forallb_forall in H.
  assert (Hin : In total (seq 1 n)) by (apply in_seq; lia).
  apply H in Hin. rewrite forallb_forall in Hin.
  apply Hin. apply in_seq. lia.
Qed.

(** X15: for a job list of at most 200 jobs, whenever a report can be built
    while [completed] does not exceed the number of jobs (which holds all
    along a run), the percentage it shows, computed and truncated on
    binary64 numbers, lies between 0 and 100 and is 100 when every job is
    counted; it is the exact percentage rounded down, except that it can be
    one less when the exact percentage is a whole number.  That happens:
    with 29 jobs of 100 counted the report shows 28. *)
Theorem completed_percentage_in_range :
  (forall (m : ProcessMonitor) (s : stats_str),
     (completed m <= List.length (args m))%nat ->
     (List.length (args m) <= 200)%nat ->
     get_stats_str m = Ok s ->
     let total := List.length (args m) in
     let exact := floor_pct (completed m) total in
     (0 <= ss_completed_pct s <= 100)%Z /\
     (completed m = total -> ss_completed_pct s = 100%Z) /\
     (exact - 1 <= ss_completed_pct s <= exact)%Z /\
     (ss_completed_pct s <> exact ->
      (Z.of_nat total * exact = 100 * Z.of_nat (completed m))%Z) /\
     ss_completed s = completed m /\ ss_total s = total) /\
  (exists s, get_stats_str monitor_29_of_100 = Ok s /\
             ss_completed s = 29%nat /\ ss_total s = 100%nat /\
             ss_completed_pct s = 28%Z).
Proof.
  split; [| eexists; vm_compute; repeat split].
  intros m s Hle Hn Hs. cbv zeta.
  destruct (get_stats_str_shown_pct m s Hs) as (Hpct & Hc & Ht & Hpos).
  assert (Hok : pct_ok (List.length (args m)) (completed m) = true)
    by (apply (pct_ok_upto_spec 200); [exact pct_ok_200 | lia | exact Hle]).
  rewrite Hpct. unfold pct_ok in Hok. cbv zeta in Hok.
  repeat (apply andb_prop in Hok; destruct Hok as [Hok ?]).
  repeat match goal with
         | H : (_ <=? _)%Z = true |- _ => apply Z.leb_le in H
         end.
  split; [split; assumption |].
  split.
  - intro E. rewrite E in *. rewrite Nat.eqb_refl in *.
    apply Z.eqb_eq. assumption.
  - split; [split; assumption |].
    split; [| split; assumption].
    intro Hne.
    destruct (Z.eqb_spec (shown_pct (completed m) (List.length (args m)))
                (floor_pct (completed m) (List.length (args m)))) as [E | _];
      [contradiction |].
    apply Z.eqb_eq. assumption.
Qed.

Lemma completed_percentage_in_range_witness :
  exists s,
    get_stats_str (fst (job_loop [job_a] (set_status RUNNING
        (fst (ProcessMonitor_init ["cmd"%string] [job_a; job_b] calm))))) = Ok s /\
    (0 <= ss_completed_pct s <= 100)%Z.
Proof.
  eexists. split; [vm_compute; reflexivity |].
  apply (proj1 completed_percentage_in_range
           (fst (job_loop [job_a] (set_status RUNNING
              (fst (ProcessMonitor_init ["cmd"%string] [job_a; job_b] calm)))))).
  - vm_compute. lia.
  - vm_compute. lia.
  - vm_compute. reflexivity.
Defined.

(** ** An interrupt during the first launch *)

(** X16: when the interrupt arrives while the first child is being launched
    ([subprocess.Popen] itself raises [KeyboardInterrupt]), [proc] is not
    bound yet: the handler of line 115 raises [UnboundLocalError], the
    status stays [RUNNING] and [run_jobs] ends with that exception instead
    of an [INTERRUPTED] report; nothing is terminated. *)
Theorem interrupt_during_first_launch (cmd : list string) (arg : string)
    (je : job_env) (later : list job) (w : world) (m0 : ProcessMonitor) :
  ProcessMonitor_init cmd ((arg, je) :: later) w = (m0, Ok tt) ->
  je_spawn je = Raise KeyboardInterrupt ->
  exists m1,
    run_jobs ((arg, je) :: later) w m0 = (m1, Raise UnboundLocalError) /\
    status m1 = RUNNING /\
    calls m1 = [UpdatePost STARTED EmptyText; Popen (cmd ++ [arg])].
Proof.
  intros Hinit Hs. rewrite ProcessMonitor_init_eq in Hinit.
  inversion Hinit; subst m0.
  rewrite run_jobs_eq, job_loop_cons.
  rewrite (run_job_spawn_raises arg je _ _ Hs). unfold on_raise. simpl.
  eexists. repeat split.
Qed.

Lemma interrupt_during_first_launch_witness :
  exists m1,
    run_jobs [job_launch_interrupted] calm
      (fst (ProcessMonitor_init ["cmd"%string] [job_launch_interrupted] calm))
      = (m1, Raise UnboundLocalError) /\
    status m1 = RUNNING /\
    calls m1 = [UpdatePost STARTED EmptyText; Popen (["cmd"%string] ++ ["a"%string])].
Proof.
  apply (interrupt_during_first_launch ["cmd"%string] "a"%string
           (snd job_launch_interrupted) [] calm).
  - reflexivity.
  - reflexivity.
Defined.

(** ** Progress reports and the gate *)

Lemma posts_app (l1 l2 : list event) :
  posts (l1 ++ l2) = (posts l1 + posts l2)%nat.
Proof.
  induction l1 as [| [cmd | p | st b |] l1 IH]; simpl; rewrite ?IH; reflexivity.
Qed.

Lemma run_job_Continue_gate (arg : string) (je : job_env)
    (m m' : ProcessMonitor) :
  run_job (arg, je) m = (m', Ok Continue) ->
  rate_limiter m' = snd (RateLimiter_call (je_gate_now je) (rate_limiter m)) /\
  posts (calls m') =
    (posts (calls m) +
     (if fst (RateLimiter_call (je_gate_now je) (rate_limiter m)) then 1 else 0))%nat.
Proof.
  destruct (je_spawn je) as [p | e] eqn:Hs.
  - destruct (poll_loop p (je_start je) (je_ticks je) []) as [d | e] eqn:Hp.
    + rewrite (run_job_counted arg je m p d Hs Hp). cbv zeta.
      change (rate_limiter (account (je_returncode je) d (je_done je) m))
        with (rate_limiter m).
      assert (Hcnt : rate_limiter (counted arg je p d m)
                     = snd (RateLimiter_call (je_gate_now je) (rate_limiter m)) /\
                     posts (calls (counted arg je p d m)) = posts (calls m)).
      { split; [reflexivity |]. unfold counted. simpl.
        rewrite posts_app. simpl. lia. }
      destruct Hcnt as [Hr Hposts].
      destruct (fst (RateLimiter_call (je_gate_now je) (rate_limiter m))).
      * destruct (get_stats_str (counted arg je p d m)) as [s | e].
        -- destruct (je_report je) as [u | e].
           ++ intro H. inversion H; subst. cbn [rate_limiter calls record_call].
              rewrite posts_app, Hposts. split; [exact Hr | reflexivity].
           ++ unfold on_raise. destruct (is_KeyboardInterrupt e);
                [destruct (proc _) |]; discriminate.
        -- unfold on_raise. destruct (is_KeyboardInterrupt e);
             [destruct (proc _) |]; discriminate.
      * intro H. inversion H; subst. split; [exact Hr | rewrite Hposts; lia].
    + rewrite (run_job_poll_raises arg je m p e Hs Hp).
      unfold on_raise. destruct (is_KeyboardInterrupt e);
        [destruct (proc _) |]; discriminate.
  - rewrite (run_job_spawn_raises arg je m e Hs).
    unfold on_raise. destruct (is_KeyboardInterrupt e);
      [destruct (proc _) |]; discriminate.
Qed.

(** X17: while the loop runs through its jobs, a progress message is sent
    for exactly the jobs at whose end the limiter lets the call through:
    the number of messages grows by the number of allowed calls among the
    gate readings, and the limiter ends as after those calls. *)
Theorem progress_reports_follow_the_gate (jobs : list job)
    (m m' : ProcessMonitor) :
  job_loop jobs m = (m', Ok Continue) ->
  posts (calls m') =
    (posts (calls m) +
     List.length (allowed_times (gate_times jobs) (rate_limiter m)))%nat /\
  rate_limiter m' = RateLimiter_after (gate_times jobs) (rate_limiter m).
Proof.
  revert m. induction jobs as [| [arg je] later IH]; intros m H.
  - simpl in H. unfold ret in H. inversion H; subst. simpl. split; [lia | reflexivity].
  - rewrite job_loop_cons in H.
    destruct (run_job (arg, je) m) as [m1 [[|] | e]] eqn:Hj; try discriminate.
    apply run_job_Continue_gate in Hj. destruct Hj as [Hr Hp].
    apply IH in H. destruct H as [Hp' Hr'].
    simpl. rewrite Hp', Hp, Hr', Hr.
    destruct (fst (RateLimiter_call (je_gate_now je) (rate_limiter m)));
      simpl; split; try reflexivity; lia.
Qed.

Lemma progress_reports_follow_the_gate_witness :
  let m := set_status RUNNING
             (fst (ProcessMonitor_init ["cmd"%string] [job_a; job_b] calm)) in
  posts (calls (fst (job_loop [job_a; job_b] m))) =
    (posts (calls m) +
     List.length (allowed_times (gate_times [job_a; job_b]) (rate_limiter m)))%nat /\
  rate_limiter (fst (job_loop [job_a; job_b] m))
    = RateLimiter_after (gate_times [job_a; job_b]) (rate_limiter m).
Proof.
  apply (progress_reports_follow_the_gate [job_a; job_b]
           (set_status RUNNING
              (fst (ProcessMonitor_init ["cmd"%string] [job_a; job_b] calm)))).
  vm_compute. reflexivity.
Defined.

(** ** The polling loop and the clock *)

(** X18: the polling of a job goes through, and yields a table, when at
    every poll the clock is not behind the start of the job, every member of
    the tree answers or is gone, and the sleep returns.  But a poll at which
    the clock reads less than [job_start] makes line 103 raise [ValueError]
    (a negative sleep length, or a logarithm out of its domain), so the
    polling ends with that exception. *)
Theorem polling_and_the_clock (p : Process) (job_start : Q) :
  (forall (ticks : list tick) (d : dict),
     Forall (steady p job_start) ticks ->
     exists d', poll_loop p job_start ticks d = Ok d') /\
  (forall (before : list tick) (tk : tick) (after : list tick) (d : dict),
     Forall (steady p job_start) before ->
     (forall pc, In pc (p :: tk_children tk) ->
                 alive (tk_cpu_times tk) pc \/ exited (tk_cpu_times tk) pc) ->
     tk_now tk < job_start ->
     poll_loop p job_start (before ++ tk :: after) d = Raise ValueError).
Proof.
  split.
  - intros ticks d Hall. revert d.
    induction Hall as [| tk later (Hclock & Halive & Hsleep) _ IH]; intro d.
    + exists d. reflexivity.
    + rewrite poll_loop_cons.
      destruct (sample_tree_total _ _ d Halive) as (d1 & Hd1 & _).
      rewrite Hd1, Hsleep, (sleep_log10_steady _ _ Hclock). apply IH.
  - intros before tk after d Hall Halive Hback. revert d.
    induction Hall as [| tk0 later (Hclock & Halive0 & Hsleep) _ IH]; intro d.
    + simpl app. rewrite poll_loop_cons.
      destruct (sample_tree_total _ _ d Halive) as (d1 & Hd1 & _).
      rewrite Hd1, (sleep_log10_clock_back _ _ _ Hback). reflexivity.
    + rewrite <- app_comm_cons, poll_loop_cons.
      destruct (sample_tree_total _ _ d Halive0) as (d1 & Hd1 & _).
      rewrite Hd1, Hsleep, (sleep_log10_steady _ _ Hclock). apply IH.
Qed.

Lemma tick_all_alive_steady : steady 11%nat 1001 tick_all_alive.
Proof.
  split; [vm_compute; discriminate |]. split; [| reflexivity].
  intros pc _. left. unfold alive. simpl.
  destruct (Nat.eqb pc 12); eexists; reflexivity.
Qed.

Lemma polling_and_the_clock_witness :
  (exists d', poll_loop 11%nat 1001 [tick_all_alive] [] = Ok d') /\
  poll_loop 11%nat 1002 ([] ++ tick_clock_back :: [tick_all_alive]) []
    = Raise ValueError.
Proof.
  split.
  - apply (proj1 (polling_and_the_clock 11%nat 1001) [tick_all_alive] []).
    constructor; [exact tick_all_alive_steady | constructor].
  - apply (proj2 (polling_and_the_clock 11%nat 1002) [] tick_clock_back
             [tick_all_alive] []).
    + constructor.
    + intros pc _. left. eexists. reflexivity.
    + reflexivity.
Defined.

(** ** The totals of a whole run *)

(** X19: when the loop of [main] has run through all its jobs, the
    [user_time] and [system_time] that [main] ends with are the sums, over
    the jobs, of the user and system times in the table each job ended
    with; the reports and the rate limiter do not touch them. *)
Theorem run_totals_are_the_sums_of_the_tables (cmd : list string)
    (jobs : list job) (w : world) (m0 m1 : ProcessMonitor) :
  ProcessMonitor_init cmd jobs w = (m0, Ok tt) ->
  job_loop jobs (set_status RUNNING m0) = (m1, Ok Continue) ->
  user_time (fst (main cmd jobs w))
    == sum (map (fun j => job_user (job_table j)) jobs) /\
  system_time (fst (main cmd jobs w))
    == sum (map (fun j => job_system (job_table j)) jobs).
Proof.
  intros Hinit Hloop.
  pose proof (main_same_counts cmd jobs w m0 tt Hinit) as [_ (_ & _ & Hu & Hs)].
  rewrite Hloop in Hu, Hs. simpl in Hu, Hs. rewrite Hu, Hs.
  destruct (job_loop_totals _ _ _ Hloop) as [Hu' Hs'].
  rewrite Hu', Hs'. rewrite ProcessMonitor_init_eq in Hinit.
  inversion Hinit; subst m0. simpl. split; ring.
Qed.

Lemma run_totals_are_the_sums_of_the_tables_witness :
  user_time (fst (main ["cmd"%string] [job_a; job_b] calm))
    == sum (map (fun j => job_user (job_table j)) [job_a; job_b]) /\
  system_time (fst (main ["cmd"%string] [job_a; job_b] calm))
    == sum (map (fun j => job_system (job_table j)) [job_a; job_b]).
Proof.
  apply (run_totals_are_the_sums_of_the_tables ["cmd"%string] [job_a; job_b] calm
           (fst (ProcessMonitor_init ["cmd"%string] [job_a; job_b] calm))
           (fst (job_loop [job_a; job_b]
              (set_status RUNNING
                 (fst (ProcessMonitor_init ["cmd"%string] [job_a; job_b] calm)))))).
  - reflexivity.
  - vm_compute. reflexivity.
Defined.
